(** * Shallow embedding of the leveled logger of trevatk/log

    Two renderings of the same package live in the repository:
    - [Structured]: src/log.go, records serialized as JSON;
    - [Plain]: src/unnamed/part_000, colorized plain-text lines.

    Go strings are byte strings, modelled as [string] (a list of 8-bit
    [ascii]).  The environment the code reads ([time.Now] formatted to the
    second, [debug.Stack]) is an explicit [Env] argument.  The sink
    ([io.Writer]) is a deterministic function of the bytes already written
    during the call and of the bytes to write; its result is the error of
    [Write], if any.  Locking, writes and process exit are recorded in a
    trace of events. *)

From Stdlib Require Import String Ascii List ZArith Bool Lia.
Import ListNotations.
Open Scope string_scope.
Open Scope Z_scope.
Set Warnings "-register-all".

(* ------------------------------------------------------------------ *)
(** ** Bytes and numbers *)

Definition byte_of (c : ascii) : Z := Z.of_nat (nat_of_ascii c).
Definition chr (z : Z) : ascii := ascii_of_nat (Z.to_nat z).
Definition bytes_of (s : string) : list Z := map byte_of (list_ascii_of_string s).
Definition string_of_bytes (l : list Z) : string :=
  string_of_list_ascii (map chr l).
Definition str1 (c : ascii) : string := String c EmptyString.

Definition digit_char (d : Z) : ascii :=
  if d <? 10 then chr (48 + d) else chr (87 + d).

(** Digits of a non-negative number in base [b] ([strconv] style). *)
Fixpoint digits_in (b : Z) (fuel : nat) (n : Z) (acc : string) : string :=
  match fuel with
  | O => acc
  | S f =>
      let acc' := String (digit_char (n mod b)) acc in
      if n / b =? 0 then acc' else digits_in b f (n / b) acc'
  end.

Definition z_fuel (n : Z) : nat := S (Z.to_nat (Z.log2 (Z.abs n))).

(** Decimal form of an integer, as [fmt] prints it with %v / %d. *)
Definition z_dec (n : Z) : string :=
  if n <? 0 then "-" ++ digits_in 10 (z_fuel n) (- n) ""
  else digits_in 10 (z_fuel n) n "".

(** Lower-case hexadecimal form of a non-negative number. *)
Definition z_hex (n : Z) : string := digits_in 16 (z_fuel n) n "".

(* ------------------------------------------------------------------ *)
(** ** UTF-8 ([unicode/utf8]) *)

Definition RuneError : Z := 65533.

Definition in_range (lo hi b : Z) : bool := (lo <=? b) && (b <=? hi).
Definition cont (b : Z) : bool := in_range 128 191 b.

(** [utf8.DecodeRune]: the rune at the head of [bs] and its width; an
    invalid or truncated encoding decodes as [RuneError] of width 1. *)
Definition decode_rune (bs : list Z) : Z * nat :=
  match bs with
  | [] => (RuneError, 0%nat)
  | b0 :: r =>
      if b0 <? 128 then (b0, 1%nat)
      else if in_range 194 223 b0 then
        match r with
        | b1 :: _ => if cont b1 then ((b0 - 192) * 64 + (b1 - 128), 2%nat)
                     else (RuneError, 1%nat)
        | _ => (RuneError, 1%nat)
        end
      else if in_range 224 239 b0 then
        let lo := if b0 =? 224 then 160 else 128 in
        let hi := if b0 =? 237 then 159 else 191 in
        match r with
        | b1 :: b2 :: _ =>
            if in_range lo hi b1 && cont b2
            then ((b0 - 224) * 4096 + (b1 - 128) * 64 + (b2 - 128), 3%nat)
            else (RuneError, 1%nat)
        | _ => (RuneError, 1%nat)
        end
      else if in_range 240 244 b0 then
        let lo := if b0 =? 240 then 144 else 128 in
        let hi := if b0 =? 244 then 143 else 191 in
        match r with
        | b1 :: b2 :: b3 :: _ =>
            if in_range lo hi b1 && cont b2 && cont b3
            then ((b0 - 240) * 262144 + (b1 - 128) * 4096
                  + (b2 - 128) * 64 + (b3 - 128), 4%nat)
            else (RuneError, 1%nat)
        | _ => (RuneError, 1%nat)
        end
      else (RuneError, 1%nat)
  end.

(** [utf8.AppendRune]: surrogates and out-of-range values encode as
    [RuneError]. *)
Definition encode_rune (r : Z) : list Z :=
  let r := if (r <? 0) || (1114111 <? r) || in_range 55296 57343 r
           then RuneError else r in
  if r <? 128 then [r]
  else if r <? 2048 then [192 + r / 64; 128 + r mod 64]
  else if r <? 65536 then
    [224 + r / 4096; 128 + (r / 64) mod 64; 128 + r mod 64]
  else [240 + r / 262144; 128 + (r / 4096) mod 64;
        128 + (r / 64) mod 64; 128 + r mod 64].

(** [strings.Map f s]: decode every rune (invalid bytes as [RuneError]),
    map it and re-encode. *)
Fixpoint map_runes (f : Z -> Z) (fuel : nat) (bs : list Z) : list Z :=
  match fuel with
  | O => []
  | S fuel' =>
      match bs with
      | [] => []
      | _ =>
          let (r, wd) := decode_rune bs in
          encode_rune (f r) ++ map_runes f fuel' (skipn wd bs)
      end
  end.

(** [unicode.ToLower].  ASCII is exact.  Of the non-ASCII rows of Go's
    case table only Latin-1 and the runes whose lower case is ASCII or
    Latin-1 are listed (U+0130 to 'i', U+212A Kelvin sign to 'k',
    U+212B Angstrom sign to U+00E5); other runes are left unchanged here.
    No unlisted row maps a rune to an ASCII byte, so the rows left out never
    decide whether a result equals an ASCII string. *)
Definition unicode_ToLower (r : Z) : Z :=
  if r <? 128 then (if in_range 65 90 r then r + 32 else r)
  else if in_range 192 222 r && negb (r =? 215) then r + 32
  else if r =? 304 then 105
  else if r =? 8490 then 107
  else if r =? 8491 then 229
  else r.

Definition lower_ascii_byte (c : ascii) : ascii :=
  if in_range 65 90 (byte_of c) then chr (byte_of c + 32) else c.

Definition is_ascii (s : string) : bool :=
  forallb (fun c => byte_of c <? 128) (list_ascii_of_string s).

(** The ASCII fast path of [strings.ToLower]: 'A'..'Z' lowered. *)
Definition ascii_lower (s : string) : string :=
  string_of_list_ascii (map lower_ascii_byte (list_ascii_of_string s)).

(** [strings.ToLower]: the ASCII fast path, otherwise
    [strings.Map(unicode.ToLower, s)]. *)
Definition ToLower (s : string) : string :=
  if is_ascii s then ascii_lower s
  else string_of_bytes
         (map_runes unicode_ToLower (length (bytes_of s)) (bytes_of s)).

(* ------------------------------------------------------------------ *)
(** ** Level *)

(** [type Level int] with the [iota] constants. *)
Definition Level := Z.
Definition DEBUG : Level := 0.
Definition INFO : Level := 1.
Definition WARN : Level := 2.
Definition ERROR : Level := 3.
Definition FATAL : Level := 4.

(** [func (lvl Level) string() string] *)
Definition level_string (lvl : Level) : string :=
  if lvl =? INFO then "INFO"
  else if lvl =? WARN then "WARN"
  else if lvl =? ERROR then "ERROR"
  else if lvl =? FATAL then "FATAL"
  else "DEBUG".

(** [func levelFromString(lvl string) Level] *)
Definition levelFromString (lvl : string) : Level :=
  let s := ToLower lvl in
  if string_dec s "info" then INFO
  else if string_dec s "warn" then WARN
  else if string_dec s "error" then ERROR
  else if string_dec s "fatal" then FATAL
  else DEBUG.

(** [type color string] and its constants ("\033[..m"). *)
Definition esc : string := str1 (chr 27).
Definition colorReset : string := esc ++ "[0m".
Definition colorRed : string := esc ++ "[31m".
Definition colorGreen : string := esc ++ "[32m".
Definition colorYellow : string := esc ++ "[33m".
Definition colorPurple : string := esc ++ "[35m".
Definition colorCyan : string := esc ++ "[36m".

(** [func colorFromLevel(level Level) color] *)
Definition colorFromLevel (level : Level) : string :=
  if level =? DEBUG then colorCyan
  else if level =? INFO then colorGreen
  else if level =? WARN then colorYellow
  else if level =? ERROR then colorRed
  else if level =? FATAL then colorPurple
  else colorReset.

(* ------------------------------------------------------------------ *)
(** ** Dynamic values ([any]) *)

(** The dynamic values passed as variadic arguments: a string, an [int],
    a [bool], the nil interface, or a channel (given by its Go type name and
    its address), the latter standing for the values [encoding/json]
    cannot encode. *)
Inductive any : Type :=
| AString (s : string)
| AInt (n : Z)
| ABool (b : bool)
| ANil
| AChan (ty : string) (addr : Z).

Definition type_name (a : any) : string :=
  match a with
  | AString _ => "string"
  | AInt _ => "int"
  | ABool _ => "bool"
  | ANil => "<nil>"
  | AChan ty _ => ty
  end.

(** [printArg(arg, 'v')] *)
Definition fmt_v (a : any) : string :=
  match a with
  | AString s => s
  | AInt n => z_dec n
  | ABool b => if b then "true" else "false"
  | ANil => "<nil>"
  | AChan _ p => "0x" ++ z_hex p
  end.

(** [badVerb]: "%!c(type=value)", or "%!c(<nil>)" for a nil argument. *)
Definition bad_verb (c : ascii) (a : any) : string :=
  match a with
  | ANil => "%!" ++ str1 c ++ "(<nil>)"
  | _ => "%!" ++ str1 c ++ "(" ++ type_name a ++ "=" ++ fmt_v a ++ ")"
  end.

Definition is_verb (c : ascii) (v : string) : bool :=
  match v with String c' _ => Ascii.eqb c c' | _ => false end.

(** [printArg(arg, verb)] for the verbs of the modelled fragment of
    [fmt]: %v, %T, %s, %d, %t and %p; any other verb is reported as a bad
    verb, which is what Go does for the verbs a type does not accept.  The
    integer verbs b, o, x, X, c, U and the string verbs q, x, X are outside
    the fragment, as are flags, width, precision and argument indexes. *)
Definition fmt_arg (c : ascii) (a : any) : string :=
  if is_verb c "T" then type_name a else
  match a with
  | ANil => if is_verb c "v" then "<nil>" else bad_verb c a
  | AString s => if is_verb c "v" || is_verb c "s" then s else bad_verb c a
  | AInt n => if is_verb c "v" || is_verb c "d" then z_dec n else bad_verb c a
  | ABool b =>
      if is_verb c "v" || is_verb c "t" then fmt_v a else bad_verb c a
  | AChan _ p =>
      if is_verb c "v" || is_verb c "p" then fmt_v a
      else if is_verb c "d" then z_dec p else bad_verb c a
  end.

(** [doPrintf]: the output and the arguments left unused. *)
Fixpoint doPrintf (f : string) (args : list any) : string * list any :=
  match f with
  | EmptyString => ("", args)
  | String "%" EmptyString => ("%!(NOVERB)", args)
  | String "%" (String c rest) =>
      if Ascii.eqb c "%" then
        let (r, a) := doPrintf rest args in ("%" ++ r, a)
      else
        match args with
        | [] => let (r, a) := doPrintf rest [] in
                ("%!" ++ str1 c ++ "(MISSING)" ++ r, a)
        | x :: xs => let (r, a) := doPrintf rest xs in (fmt_arg c x ++ r, a)
        end
  | String ch rest => let (r, a) := doPrintf rest args in (String ch r, a)
  end.

Definition extra_arg (a : any) : string :=
  match a with
  | ANil => "<nil>"
  | _ => type_name a ++ "=" ++ fmt_v a
  end.

(** [fmt.Sprintf]: unused arguments are reported as "%!(EXTRA ...)". *)
Definition Sprintf (f : string) (args : list any) : string :=
  let (r, extra) := doPrintf f args in
  match extra with
  | [] => r
  | _ => r ++ "%!(EXTRA " ++ String.concat ", " (map extra_arg extra) ++ ")"
  end.

(* ------------------------------------------------------------------ *)
(** ** JSON values and their compact encoding ([encoding/json]) *)

Inductive json : Type :=
| JNull
| JBool (b : bool)
| JNum (n : Z)
| JStr (s : string)
| JArr (l : list json)
| JObj (kvs : list (string * json)).

Definition dquote : string := str1 (chr 34).

(** Bytes [encoding/json] copies unchanged when HTML escaping is on. *)
Definition html_safe (b : Z) : bool :=
  (32 <=? b) && negb (b =? 34) && negb (b =? 92) && negb (b =? 60)
  && negb (b =? 62) && negb (b =? 38).

(** [appendString] (Go 1.22 and later: short escapes for \b and \f):
    invalid UTF-8 becomes the escape of U+FFFD, U+2028 and U+2029 are escaped. *)
Fixpoint json_escape (fuel : nat) (bs : list Z) : string :=
  match fuel with
  | O => ""
  | S f =>
      match bs with
      | [] => ""
      | b :: rest =>
          if b <? 128 then
            (if html_safe b then str1 (chr b)
             else if b =? 92 then "\\"
             else if b =? 34 then "\" ++ dquote
             else if b =? 8 then "\b"
             else if b =? 12 then "\f"
             else if b =? 10 then "\n"
             else if b =? 13 then "\r"
             else if b =? 9 then "\t"
             else "\u00" ++ str1 (digit_char (b / 16))
                         ++ str1 (digit_char (b mod 16)))
            ++ json_escape f rest
          else
            let (r, wd) := decode_rune bs in
            if (r =? RuneError) && Nat.eqb wd 1 then
              "\ufffd" ++ json_escape f rest
            else if (r =? 8232) || (r =? 8233) then
              "\u202" ++ str1 (digit_char (r mod 16))
                      ++ json_escape f (skipn wd bs)
            else string_of_bytes (firstn wd bs) ++ json_escape f (skipn wd bs)
      end
  end.

Definition json_string (s : string) : string :=
  dquote ++ json_escape (length (bytes_of s)) (bytes_of s) ++ dquote.

(** Compact encoding, as [json.Marshal] produces it. *)
Fixpoint render (j : json) : string :=
  match j with
  | JNull => "null"
  | JBool b => if b then "true" else "false"
  | JNum n => z_dec n
  | JStr s => json_string s
  | JArr l => "[" ++ String.concat "," (map render l) ++ "]"
  | JObj kvs =>
      "{" ++ String.concat ","
               (map (fun kv => json_string (fst kv) ++ ":" ++ render (snd kv)) kvs)
      ++ "}"
  end.

(** Encoding of a dynamic value: a channel is an
    [UnsupportedTypeError]. *)
Definition any_to_json (a : any) : string + json :=
  match a with
  | AString s => inr (JStr s)
  | AInt n => inr (JNum n)
  | ABool b => inr (JBool b)
  | ANil => inr JNull
  | AChan ty _ => inl ("json: unsupported type: " ++ ty)
  end.

Fixpoint encode_all (l : list any) : string + list json :=
  match l with
  | [] => inr []
  | a :: r =>
      match any_to_json a with
      | inl e => inl e
      | inr j => match encode_all r with
                 | inl e => inl e
                 | inr js => inr (j :: js)
                 end
      end
  end.

(* ------------------------------------------------------------------ *)
(** ** Environment, sink and effects *)

(** What [time.Now().Format("2006-01-02 15:04:05")] and [debug.Stack()]
    return during the call. *)
Record Env : Type := { now : string; stack : string }.

(** Identity of an [io.Writer], as compared by [l.w == os.Stdout]. *)
Inductive writer_id : Type :=
| Stdout | Stdin | Stderr | OtherWriter (n : nat).

(** An [io.Writer]: [w_write prev b] is the error [Write(b)] returns when
    [prev] are the byte slices written before during the call. *)
Record writer : Type := {
  w_id : writer_id;
  w_write : list string -> string -> option string
}.

(** Events of one emission call: the mutex, and each [Write] with the
    bytes and the error it returned. *)
Inductive event : Type :=
| ELock
| EUnlock
| EWrite (b : string) (err : option string).

(** How the call ends: it returns, it panics, or [os.Exit(code)]. *)
Inductive outcome (A : Type) : Type :=
| Done (a : A)
| Panicked
| Exited (code : Z).
Arguments Done {A} a.
Arguments Panicked {A}.
Arguments Exited {A} code.

Definition M (A : Type) : Type := list event -> outcome A * list event.

Definition ret {A} (a : A) : M A := fun tr => (Done a, tr).

Definition bind {A B} (m : M A) (k : A -> M B) : M B :=
  fun tr =>
    match m tr with
    | (Done a, tr') => k a tr'
    | (Panicked, tr') => (Panicked, tr')
    | (Exited c, tr') => (Exited c, tr')
    end.

Notation "x <- m ;; k" := (bind m (fun x => k))
  (at level 61, m at next level, right associativity).
Notation "m ;;; k" := (bind m (fun _ => k))
  (at level 61, right associativity).

Fixpoint writes_of (tr : list event) : list string :=
  match tr with
  | [] => []
  | EWrite b _ :: r => b :: writes_of r
  | _ :: r => writes_of r
  end.

(** [w.Write(b)]: a call through a nil interface panics. *)
Definition write (w : option writer) (b : string) : M (option string) :=
  fun tr =>
    match w with
    | None => (Panicked, tr)
    | Some wr =>
        let e := w_write wr (writes_of tr) b in
        (Done e, app tr [EWrite b e])
    end.

(** [os.Exit(code)]: deferred calls do not run. *)
Definition exit {A} (code : Z) : M A := fun tr => (Exited code, tr).

(** [l.mu.Lock(); defer l.mu.Unlock(); body]: the unlock runs when the
    body returns or panics, not when it exits the process. *)
Definition locked (body : M unit) : M unit :=
  fun tr =>
    match body (app tr [ELock]) with
    | (Done u, tr') => (Done u, app tr' [EUnlock])
    | (Panicked, tr') => (Panicked, app tr' [EUnlock])
    | (Exited c, tr') => (Exited c, tr')
    end.

(** Running one call from an empty trace. *)
Definition run (m : M unit) : outcome unit * list event := m [].

Definition nl : string := str1 (chr 10).

(** The ten public emission methods, as a call of one of them. *)
Inductive Call : Type :=
| CDebug (format : string) | CDebugf (format : string) (args : list any)
| CInfo (format : string) | CInfof (format : string) (args : list any)
| CWarn (format : string) | CWarnf (format : string) (args : list any)
| CError (format : string) | CErrorf (format : string) (args : list any)
| CFatal (format : string) | CFatalf (format : string) (args : list any).

Definition call_level (c : Call) : Level :=
  match c with
  | CDebug _ | CDebugf _ _ => DEBUG
  | CInfo _ | CInfof _ _ => INFO
  | CWarn _ | CWarnf _ _ => WARN
  | CError _ | CErrorf _ _ => ERROR
  | CFatal _ | CFatalf _ _ => FATAL
  end.

(** The arguments a method passes on to [logMsg]: the plain form passes
    ["%s"] and its message, the f-suffixed form its template and arguments. *)
Definition call_args (c : Call) : string * list any :=
  match c with
  | CDebug m | CInfo m | CWarn m | CError m | CFatal m => ("%s", [AString m])
  | CDebugf f a | CInfof f a | CWarnf f a | CErrorf f a | CFatalf f a => (f, a)
  end.

(* ------------------------------------------------------------------ *)
(** * src/log.go: the structured (JSON) rendering *)

Module Structured.

(** [type Logger struct]; the mutex is the [ELock]/[EUnlock] events. *)
Record Logger : Type := {
  w : option writer;
  minLevel : Level;
  name : string;
  includeCaller : bool;
  stacktrace : bool
}.

(** [type LoggerOption func( *Logger)]: the five options of the package. *)
Inductive LoggerOption : Type :=
| WithWriter (wr : option writer)
| WithName (n : string)
| WithLevel (level : string)
| WithCaller (includeCaller : bool)
| WithStacktrace (stacktrace : bool).

Definition apply_option (o : LoggerOption) (l : Logger) : Logger :=
  match o with
  | WithWriter wr => {| w := wr; minLevel := minLevel l; name := name l;
                        includeCaller := includeCaller l; stacktrace := stacktrace l |}
  | WithName n => {| w := w l; minLevel := minLevel l; name := n;
                     includeCaller := includeCaller l; stacktrace := stacktrace l |}
  | WithLevel s => {| w := w l; minLevel := levelFromString s; name := name l;
                      includeCaller := includeCaller l; stacktrace := stacktrace l |}
  | WithCaller b => {| w := w l; minLevel := minLevel l; name := name l;
                       includeCaller := b; stacktrace := stacktrace l |}
  | WithStacktrace b => {| w := w l; minLevel := minLevel l; name := name l;
                           includeCaller := includeCaller l; stacktrace := b |}
  end.

(** The zero value [&Logger{mu: sync.Mutex{}}]. *)
Definition zero_logger : Logger :=
  {| w := None; minLevel := 0; name := ""; includeCaller := false;
     stacktrace := false |}.

(** [func New(opts ...LoggerOption) *Logger] *)
Definition New (opts : list LoggerOption) : Logger :=
  fold_left (fun l o => apply_option o l) opts zero_logger.

(** [type entry struct] *)
Record entry : Type := {
  en_Name : string;
  en_Level : string;
  en_Caller : string;
  en_Message : string;
  en_Fields : list any;
  en_Stacktrace : string;
  en_Timestamp : string
}.

Definition set_Fields (fs : list any) (en : entry) : entry :=
  {| en_Name := en_Name en; en_Level := en_Level en; en_Caller := en_Caller en;
     en_Message := en_Message en; en_Fields := fs;
     en_Stacktrace := en_Stacktrace en; en_Timestamp := en_Timestamp en |}.

Definition set_Stacktrace (st : string) (en : entry) : entry :=
  {| en_Name := en_Name en; en_Level := en_Level en; en_Caller := en_Caller en;
     en_Message := en_Message en; en_Fields := en_Fields en;
     en_Stacktrace := st; en_Timestamp := en_Timestamp en |}.

(** [fmt.Sprintf(" %sstracktrace %s%s", colorFromLevel(level), colorReset,
    string(stacktrace))] *)
Definition stack_text (env : Env) (level : Level) : string :=
  " " ++ colorFromLevel level ++ "stracktrace " ++ colorReset ++ stack env.

(** The [for _, arg := range args] loop of [fmt]. *)
Fixpoint fmt_loop (env : Env) (l : Logger) (level : Level) (args : list any)
    (en : entry) : entry :=
  match args with
  | [] => en
  | arg :: rest =>
      let en := set_Fields (app (en_Fields en) [arg]) en in
      let en := if (level =? ERROR) || (level =? FATAL) then
                  if stacktrace l then set_Stacktrace (stack_text env level) en
                  else en
                else en in
      fmt_loop env l level rest en
  end.

(** [func (l *Logger) fmt(level Level, format string, args ...any) entry] *)
Definition fmt (env : Env) (l : Logger) (level : Level) (format : string)
    (args : list any) : entry :=
  fmt_loop env l level args
    {| en_Name := name l; en_Level := level_string level; en_Caller := "";
       en_Message := format; en_Fields := []; en_Stacktrace := "";
       en_Timestamp := now env |}.

(** A string field tagged [omitempty]. *)
Definition omit_empty (k v : string) : list (string * json) :=
  match v with EmptyString => [] | _ => [(k, JStr v)] end.

(** The JSON object [json.Marshal] builds from an [entry], in field order,
    following the struct tags: [name], [caller], [msg], [fields] and
    [stacktrace] are [omitempty]; [level] and [timestamp] are not. *)
Definition entry_json (en : entry) : string + json :=
  match encode_all (en_Fields en) with
  | inl e => inl e
  | inr fs =>
      inr (JObj (app (omit_empty "name" (en_Name en))
                (app [("level", JStr (en_Level en))]
                (app (omit_empty "caller" (en_Caller en))
                (app (omit_empty "msg" (en_Message en))
                (app (match en_Fields en with [] => [] | _ => [("fields", JArr fs)] end)
                (app (omit_empty "stacktrace" (en_Stacktrace en))
                     [("timestamp", JStr (en_Timestamp en))])))))))
  end.

(** [json.Marshal(&logEntry)]: the bytes, or the error text. *)
Definition Marshal (en : entry) : string + string :=
  match entry_json en with
  | inl e => inl e
  | inr j => inr (render j)
  end.

(** [func (l *Logger) logMsg(level Level, format string, args ...any)] *)
Definition logMsg (env : Env) (l : Logger) (level : Level) (format : string)
    (args : list any) : M unit :=
  if minLevel l >? level then ret tt
  else locked (
    let logEntry := fmt env l level format args in
    entrybytes <- (match Marshal logEntry with
                   | inl err =>
                       write (w l) ("failed to marshal message " ++ err
                                    ++ " original message " ++ format) ;;;
                       ret ""
                   | inr b => ret b
                   end) ;;
    err <- write (w l) (entrybytes ++ nl) ;;
    (match err with
     | Some e => write (w l) ("failed to write to out: " ++ e) ;;; ret tt
     | None => ret tt
     end) ;;;
    (if level =? FATAL then exit 1 else ret tt)).

Definition Debug env l (format : string) := logMsg env l DEBUG "%s" [AString format].
Definition Debugf env l format args := logMsg env l DEBUG format args.
Definition Info env l (format : string) := logMsg env l INFO "%s" [AString format].
Definition Infof env l format args := logMsg env l INFO format args.
Definition Warn env l (format : string) := logMsg env l WARN "%s" [AString format].
Definition Warnf env l format args := logMsg env l WARN format args.
Definition Error env l (format : string) := logMsg env l ERROR "%s" [AString format].
Definition Errorf env l format args := logMsg env l ERROR format args.
Definition Fatal env l (format : string) := logMsg env l FATAL "%s" [AString format].
Definition Fatalf env l format args := logMsg env l FATAL format args.

(** Dispatch of a [Call] to its method. *)
Definition emit (env : Env) (l : Logger) (c : Call) : M unit :=
  match c with
  | CDebug m => Debug env l m | CDebugf f a => Debugf env l f a
  | CInfo m => Info env l m | CInfof f a => Infof env l f a
  | CWarn m => Warn env l m | CWarnf f a => Warnf env l f a
  | CError m => Error env l m | CErrorf f a => Errorf env l f a
  | CFatal m => Fatal env l m | CFatalf f a => Fatalf env l f a
  end.

End Structured.

(* ------------------------------------------------------------------ *)
(** * src/unnamed/part_000: the plain-text rendering *)

Module Plain.

(** [type Logger struct] of this version: no feature flags. *)
Record Logger : Type := {
  w : option writer;
  minLevel : Level;
  name : string
}.

Inductive LoggerOption : Type :=
| WithWriter (wr : option writer)
| WithName (n : string)
| WithLevel (level : string).

Definition apply_option (o : LoggerOption) (l : Logger) : Logger :=
  match o with
  | WithWriter wr => {| w := wr; minLevel := minLevel l; name := name l |}
  | WithName n => {| w := w l; minLevel := minLevel l; name := n |}
  | WithLevel s => {| w := w l; minLevel := levelFromString s; name := name l |}
  end.

Definition zero_logger : Logger := {| w := None; minLevel := 0; name := "" |}.

(** [func New(opts ...LoggerOption) *Logger] *)
Definition New (opts : list LoggerOption) : Logger :=
  fold_left (fun l o => apply_option o l) opts zero_logger.

(** [l.w == os.Stdout || l.w == os.Stdin] *)
Definition is_std (w : option writer) : bool :=
  match w with
  | Some wr => match w_id wr with Stdout | Stdin => true | _ => false end
  | None => false
  end.

(** The part of the line the code appends for ERROR and FATAL. *)
Definition stack_text (env : Env) (level : Level) : string :=
  " " ++ colorFromLevel level ++ "stracktrace " ++ colorReset ++ stack env.

(** The line up to the message:
    [fmt.Sprintf("%s%s [%s%s%s] %s ", clr, ts, ...)]. *)
Definition header (env : Env) (l : Logger) (level : Level) : string :=
  let clr := if is_std (w l) then colorFromLevel level else "" in
  clr ++ now env ++ " [" ++ colorFromLevel level ++ level_string level
      ++ colorReset ++ "] " ++ name l ++ " ".

(** [func (l *Logger) fmt(level Level, format string, args ...interface{}) string] *)
Definition fmt (env : Env) (l : Logger) (level : Level) (format : string)
    (args : list any) : string :=
  let msg := Sprintf format args in
  let lmsg := header env l level ++ msg in
  let lmsg := if (level =? ERROR) || (level =? FATAL)
              then lmsg ++ stack_text env level else lmsg in
  lmsg ++ nl.

(** [func (l *Logger) logMsg(level Level, format string, args ...interface{})] *)
Definition logMsg (env : Env) (l : Logger) (level : Level) (format : string)
    (args : list any) : M unit :=
  if minLevel l >? level then ret tt
  else locked (
    let fmsg := fmt env l level format args in
    err <- write (w l) fmsg ;;
    (match err with
     | Some e => write (w l) ("failed to write to out: " ++ e) ;;; ret tt
     | None => ret tt
     end) ;;;
    (if level =? FATAL then exit 1 else ret tt)).

Definition Debug env l (format : string) := logMsg env l DEBUG "%s" [AString format].
Definition Debugf env l format args := logMsg env l DEBUG format args.
Definition Info env l (format : string) := logMsg env l INFO "%s" [AString format].
Definition Infof env l format args := logMsg env l INFO format args.
Definition Warn env l (format : string) := logMsg env l WARN "%s" [AString format].
Definition Warnf env l format args := logMsg env l WARN format args.
Definition Error env l (format : string) := logMsg env l ERROR "%s" [AString format].
Definition Errorf env l format args := logMsg env l ERROR format args.
Definition Fatal env l (format : string) := logMsg env l FATAL "%s" [AString format].
Definition Fatalf env l format args := logMsg env l FATAL format args.

Definition emit (env : Env) (l : Logger) (c : Call) : M unit :=
  match c with
  | CDebug m => Debug env l m | CDebugf f a => Debugf env l f a
  | CInfo m => Info env l m | CInfof f a => Infof env l f a
  | CWarn m => Warn env l m | CWarnf f a => Warnf env l f a
  | CError m => Error env l m | CErrorf f a => Errorf env l f a
  | CFatal m => Fatal env l m | CFatalf f a => Fatalf env l f a
  end.

End Plain.

(* ------------------------------------------------------------------ *)
(** * Concrete sinks and environment *)

Definition buf : writer := {| w_id := OtherWriter 0; w_write := fun _ _ => None |}.
Definition broken : writer :=
  {| w_id := OtherWriter 1; w_write := fun _ _ => Some "disk full" |}.
Definition env0 : Env := {| now := "2024-01-02 03:04:05"; stack := "goroutine 1 [running]:" |}.
Definition svc_logger : Structured.Logger :=
  Structured.New [Structured.WithWriter (Some buf); Structured.WithName "svc";
                  Structured.WithStacktrace true].

(* ------------------------------------------------------------------ *)
(** * Definitions following the spec's words *)

(** Modelled from the claim's words "matching under case folding": Unicode
    case folding (CaseFolding.txt, statuses C and F) of one rune.  Listed
    are ASCII, Latin-1 and every row whose folding has an ASCII letter
    (U+0130 folds to "i" followed by U+0307); other runes fold to
    themselves here, and none of those folds to an ASCII letter. *)
Definition fold_rune (r : Z) : list Z :=
  if in_range 65 90 r then [r + 32]
  else if r =? 181 then [956]
  else if in_range 192 222 r && negb (r =? 215) then [r + 32]
  else if r =? 223 then [115; 115]
  else if r =? 304 then [105; 775]
  else if r =? 383 then [115]
  else if r =? 7838 then [115; 115]
  else if r =? 8490 then [107]
  else if r =? 8491 then [229]
  else if r =? 64256 then [102; 102]
  else if r =? 64257 then [102; 105]
  else if r =? 64258 then [102; 108]
  else if r =? 64259 then [102; 102; 105]
  else if r =? 64260 then [102; 102; 108]
  else if (r =? 64261) || (r =? 64262) then [115; 116]
  else [r].

Fixpoint case_fold_bytes (fuel : nat) (bs : list Z) : list Z :=
  match fuel with
  | O => []
  | S f =>
      match bs with
      | [] => []
      | _ => let (r, wd) := decode_rune bs in
             app (flat_map encode_rune (fold_rune r)) (case_fold_bytes f (skipn wd bs))
      end
  end.

Definition case_fold (s : string) : string :=
  string_of_bytes (case_fold_bytes (length (bytes_of s)) (bytes_of s)).

Definition level_keywords : list string := ["info"; "warn"; "error"; "fatal"].

(** "İNFO": U+0130 followed by "NFO". *)
Definition dotted_INFO : string := string_of_bytes [196; 176; 78; 70; 79].

(** Which field of the [Logger] an option writes. *)
Definition option_kind (o : Structured.LoggerOption) : nat :=
  match o with
  | Structured.WithWriter _ => 0
  | Structured.WithName _ => 1
  | Structured.WithLevel _ => 2
  | Structured.WithCaller _ => 3
  | Structured.WithStacktrace _ => 4
  end%nat.

(** The field written by [o] holds the value [o] gives it. *)
Definition option_holds (o : Structured.LoggerOption) (l : Structured.Logger) : Prop :=
  match o with
  | Structured.WithWriter x => Structured.w l = x
  | Structured.WithName n => Structured.name l = n
  | Structured.WithLevel s => Structured.minLevel l = levelFromString s
  | Structured.WithCaller b => Structured.includeCaller l = b
  | Structured.WithStacktrace b => Structured.stacktrace l = b
  end.

(** What the plain-text line holds after the message. *)
Definition plain_tail (env : Env) (level : Level) : string :=
  (if (level =? ERROR) || (level =? FATAL) then Plain.stack_text env level else "")
  ++ nl.

(** The object keys of a JSON value. *)
Definition json_keys (j : json) : list string :=
  match j with JObj kvs => map fst kvs | _ => [] end.


(** A dynamic value [encoding/json] rejects. *)
Definition is_chan (a : any) : bool :=
  match a with AChan _ _ => true | _ => false end.

(** Which field of the plain-text [Logger] an option writes, and the value
    it gives it. *)
Definition plain_option_kind (o : Plain.LoggerOption) : nat :=
  match o with
  | Plain.WithWriter _ => 0
  | Plain.WithName _ => 1
  | Plain.WithLevel _ => 2
  end%nat.

Definition plain_option_holds (o : Plain.LoggerOption) (l : Plain.Logger) : Prop :=
  match o with
  | Plain.WithWriter x => Plain.w l = x
  | Plain.WithName n => Plain.name l = n
  | Plain.WithLevel s => Plain.minLevel l = levelFromString s
  end.

(** A byte string without a newline byte. *)
Definition nl_free (s : string) : bool :=
  forallb (fun c => negb (Ascii.eqb c (chr 10))) (list_ascii_of_string s).

(* ================================================================== *)
(** * Properties *)

Example Sprintf_d : Sprintf "%d" [AInt 1] = "1". Proof. reflexivity. Qed.
Example Sprintf_missing : Sprintf "a %d" [] = "a %!d(MISSING)".
Proof. reflexivity. Qed.
Example Sprintf_extra : Sprintf "x" [AInt 12] = "x%!(EXTRA int=12)".
Proof. reflexivity. Qed.
Example ToLower_ascii : ToLower "WaRn" = "warn". Proof. reflexivity. Qed.

Example structured_info :
  run (Structured.Info env0 (Structured.New [Structured.WithWriter (Some buf);
        Structured.WithName "unit_test"]) "hi")
  = (Done tt, [ELock; EWrite ("{" ++ dquote ++ "name" ++ dquote ++ ":" ++ dquote
      ++ "unit_test" ++ dquote ++ "," ++ dquote ++ "level" ++ dquote ++ ":"
      ++ dquote ++ "INFO" ++ dquote ++ "," ++ dquote ++ "msg" ++ dquote ++ ":"
      ++ dquote ++ "%s" ++ dquote ++ "," ++ dquote ++ "fields" ++ dquote ++ ":["
      ++ dquote ++ "hi" ++ dquote ++ "]," ++ dquote ++ "timestamp" ++ dquote
      ++ ":" ++ dquote ++ "2024-01-02 03:04:05" ++ dquote ++ "}" ++ nl) None;
      EUnlock]).
Proof. reflexivity. Qed.

Lemma Structured_emit_logMsg env l c :
  Structured.emit env l c
  = Structured.logMsg env l (call_level c) (fst (call_args c)) (snd (call_args c)).
Proof. destruct c; reflexivity. Qed.

Lemma Plain_emit_logMsg env l c :
  Plain.emit env l c
  = Plain.logMsg env l (call_level c) (fst (call_args c)) (snd (call_args c)).
Proof. destruct c; reflexivity. Qed.

Lemma lower_ascii_byte_is_ascii c :
  (byte_of (lower_ascii_byte c) <? 128) = (byte_of c <? 128).
Proof. destruct c as [[] [] [] [] [] [] [] []]; reflexivity. Qed.

Lemma is_ascii_ascii_lower s : is_ascii (ascii_lower s) = is_ascii s.
Proof.
  unfold is_ascii, ascii_lower.
  rewrite list_ascii_of_string_of_list_ascii.
  induction (list_ascii_of_string s) as [|c r IH]; simpl; [reflexivity|].
  rewrite lower_ascii_byte_is_ascii, IH. reflexivity.
Qed.

Lemma ToLower_ascii_keyword s :
  In (ascii_lower s) level_keywords -> ToLower s = ascii_lower s.
Proof.
  intros Hin. unfold ToLower.
  assert (Ha : is_ascii (ascii_lower s) = true)
    by (simpl in Hin; destruct Hin as [E|[E|[E|[E|[]]]]]; rewrite <- E; reflexivity).
  rewrite is_ascii_ascii_lower in Ha. rewrite Ha. reflexivity.
Qed.

(** C6 (counterexample): "every string not matching a keyword under case
    folding maps to DEBUG" fails at "İNFO": it case-folds to "i̇nfo",
    but [strings.ToLower] lowers U+0130 to 'i', so the result is INFO. *)
Lemma C6_counterexample :
  ~ (forall s,
       (case_fold s = "info" -> levelFromString s = INFO) /\
       (case_fold s = "warn" -> levelFromString s = WARN) /\
       (case_fold s = "error" -> levelFromString s = ERROR) /\
       (case_fold s = "fatal" -> levelFromString s = FATAL) /\
       (~ In (case_fold s) level_keywords -> levelFromString s = DEBUG)).
Proof.
  intros H. destruct (H dotted_INFO) as [_ [_ [_ [_ H5]]]].
  assert (Hn : ~ In (case_fold dotted_INFO) level_keywords)
    by (vm_compute; intuition discriminate).
  specialize (H5 Hn). vm_compute in H5. discriminate.
Qed.

(** C6 (amended): [levelFromString] returns INFO, WARN, ERROR or FATAL
    exactly when [strings.ToLower] of its input is "info", "warn", "error"
    or "fatal", and DEBUG for every other input, never an error; an ASCII
    input whose ASCII lower case is a keyword always reaches it, so "Warn",
    "WARN", "warn" give WARN and "bogus", "trace", "" give DEBUG, while
    the non-ASCII "İNFO" also gives INFO. *)
Theorem levelFromString_ToLower : forall s,
  (levelFromString s = INFO <-> ToLower s = "info") /\
  (levelFromString s = WARN <-> ToLower s = "warn") /\
  (levelFromString s = ERROR <-> ToLower s = "error") /\
  (levelFromString s = FATAL <-> ToLower s = "fatal") /\
  (levelFromString s = DEBUG <-> ~ In (ToLower s) level_keywords) /\
  (In (ascii_lower s) level_keywords -> ToLower s = ascii_lower s) /\
  map levelFromString ["Warn"; "WARN"; "warn"; "bogus"; "trace"; ""; dotted_INFO]
    = [WARN; WARN; WARN; DEBUG; DEBUG; DEBUG; INFO].
Proof.
  intros s. split; [|split; [|split; [|split; [|split; [|split]]]]].
  all: try (apply ToLower_ascii_keyword); try reflexivity.
  all: unfold levelFromString, level_keywords;
       destruct (string_dec (ToLower s) "info") as [E1|E1];
       [rewrite E1; simpl; intuition (try discriminate) |];
       destruct (string_dec (ToLower s) "warn") as [E2|E2];
       [rewrite E2; simpl; intuition (try discriminate) |];
       destruct (string_dec (ToLower s) "error") as [E3|E3];
       [rewrite E3; simpl; intuition (try discriminate) |];
       destruct (string_dec (ToLower s) "fatal") as [E4|E4];
       [rewrite E4; simpl; intuition (try discriminate) |];
       simpl; unfold DEBUG, INFO, WARN, ERROR, FATAL;
       intuition (try discriminate; try congruence).
Qed.

(** ** Strings *)

Lemma sappend_nil_r (s : string) : s ++ "" = s.
Proof. induction s as [|c s IH]; simpl; [reflexivity | now rewrite IH]. Qed.

Lemma sappend_assoc (a b c : string) : (a ++ b) ++ c = a ++ b ++ c.
Proof. induction a as [|x a IH]; simpl; [reflexivity | now rewrite IH]. Qed.

Lemma sappend_nl_nonempty (s : string) : s ++ nl <> "".
Proof. destruct s; discriminate. Qed.

Lemma Sprintf_s (m : string) : Sprintf "%s" [AString m] = m.
Proof. unfold Sprintf. simpl. apply sappend_nil_r. Qed.

(** ** Levels *)

Lemma levelFromString_range s : DEBUG <= levelFromString s <= FATAL.
Proof.
  unfold levelFromString, DEBUG, INFO, WARN, ERROR, FATAL.
  repeat (destruct string_dec); lia.
Qed.

Lemma call_level_range c : DEBUG <= call_level c <= FATAL.
Proof. destruct c; unfold call_level, DEBUG, INFO, WARN, ERROR, FATAL; lia. Qed.

Lemma gtb_false a b : a <= b -> (a >? b) = false.
Proof. intros H. rewrite Z.gtb_ltb. apply Z.ltb_ge. lia. Qed.

Lemma gtb_true a b : a > b -> (a >? b) = true.
Proof. intros H. apply Z.gtb_lt. lia. Qed.

(** ** The trace of one [logMsg] call, structured rendering *)

Section StructuredTrace.
Import Structured.
Variables (env : Env) (l : Logger) (level : Level) (f : string) (args : list any).

Lemma S_filtered :
  minLevel l > level -> run (logMsg env l level f args) = (Done tt, []).
Proof. intros H. unfold run, logMsg. now rewrite gtb_true. Qed.

(** The record serializes: one write of it, a diagnostic write if that
    write fails, then the exit for FATAL or the unlock otherwise. *)
Lemma S_trace_ok wr j :
  minLevel l <= level -> w l = Some wr ->
  Marshal (fmt env l level f args) = inr j ->
  let b := j ++ nl in
  let e := w_write wr [] b in
  run (logMsg env l level f args) =
    (if level =? FATAL then Exited 1 else Done tt,
     ELock :: EWrite b e ::
       app (match e with
            | Some err => let d := "failed to write to out: " ++ err in
                          [EWrite d (w_write wr [b] d)]
            | None => []
            end)
           (if level =? FATAL then [] else [EUnlock])).
Proof.
  intros Hl Hw Hm b e. unfold run, logMsg. rewrite gtb_false by exact Hl.
  unfold locked, bind, write, ret, exit. rewrite Hm, Hw. simpl.
  fold b. fold e.
  destruct e as [err|]; destruct (level =? FATAL); reflexivity.
Qed.

(** Serialization fails: the diagnostic, then the write of the empty
    byte slice with its newline. *)
Lemma S_trace_marshal_error wr err :
  minLevel l <= level -> w l = Some wr ->
  Marshal (fmt env l level f args) = inl err ->
  let d1 := "failed to marshal message " ++ err ++ " original message " ++ f in
  let e1 := w_write wr [] d1 in
  let e2 := w_write wr [d1] nl in
  run (logMsg env l level f args) =
    (if level =? FATAL then Exited 1 else Done tt,
     ELock :: EWrite d1 e1 :: EWrite nl e2 ::
       app (match e2 with
            | Some er => let d := "failed to write to out: " ++ er in
                         [EWrite d (w_write wr [d1; nl] d)]
            | None => []
            end)
           (if level =? FATAL then [] else [EUnlock])).
Proof.
  intros Hl Hw Hm. cbv zeta. unfold run, logMsg. rewrite gtb_false by exact Hl.
  unfold locked, bind, write, ret, exit. rewrite Hm, Hw. simpl.
  destruct (w_write wr [_] nl); destruct (level =? FATAL); reflexivity.
Qed.

(** A nil sink: the first write panics, the deferred unlock runs. *)
Lemma S_trace_nil :
  minLevel l <= level -> w l = None ->
  run (logMsg env l level f args) = (Panicked, [ELock; EUnlock]).
Proof.
  intros Hl Hw. unfold run, logMsg. rewrite gtb_false by exact Hl.
  unfold locked, bind, write, ret, exit. rewrite Hw.
  destruct (Marshal (fmt env l level f args)); reflexivity.
Qed.

End StructuredTrace.

(** ** The trace of one [logMsg] call, plain-text rendering *)

Section PlainTrace.
Import Plain.
Variables (env : Env) (l : Logger) (level : Level) (f : string) (args : list any).

Lemma P_filtered :
  minLevel l > level -> run (logMsg env l level f args) = (Done tt, []).
Proof. intros H. unfold run, logMsg. now rewrite gtb_true. Qed.

Lemma P_trace wr :
  minLevel l <= level -> w l = Some wr ->
  let b := fmt env l level f args in
  let e := w_write wr [] b in
  run (logMsg env l level f args) =
    (if level =? FATAL then Exited 1 else Done tt,
     ELock :: EWrite b e ::
       app (match e with
            | Some err => let d := "failed to write to out: " ++ err in
                          [EWrite d (w_write wr [b] d)]
            | None => []
            end)
           (if level =? FATAL then [] else [EUnlock])).
Proof.
  intros Hl Hw b e. unfold run, logMsg. rewrite gtb_false by exact Hl.
  unfold locked, bind, write, ret, exit. rewrite Hw. simpl.
  fold b. fold e.
  destruct e as [err|]; destruct (level =? FATAL); reflexivity.
Qed.

Lemma P_trace_nil :
  minLevel l <= level -> w l = None ->
  run (logMsg env l level f args) = (Panicked, [ELock; EUnlock]).
Proof.
  intros Hl Hw. unfold run, logMsg. rewrite gtb_false by exact Hl.
  unfold locked, bind, write, ret, exit. rewrite Hw. reflexivity.
Qed.

Lemma P_fmt_ends_nl :
  exists p, fmt env l level f args = p ++ nl.
Proof. unfold fmt. eexists. reflexivity. Qed.

End PlainTrace.

(** ** Outcome of an unfiltered call with a configured sink *)

Lemma S_outcome env l level f args wr :
  Structured.minLevel l <= level -> Structured.w l = Some wr ->
  exists tr,
    run (Structured.logMsg env l level f args)
      = (if level =? FATAL then Exited 1 else Done tt, ELock :: tr) /\
    writes_of tr <> [] /\
    ((level =? FATAL) = true -> ~ In EUnlock tr).
Proof.
  intros Hl Hw.
  destruct (Structured.Marshal (Structured.fmt env l level f args)) as [err|j] eqn:Hm.
  - pose proof (S_trace_marshal_error env l level f args wr err Hl Hw Hm) as T.
    cbv zeta in T. rewrite T. eexists. split; [reflexivity|].
    split; [discriminate|]. intros HF. rewrite HF.
    destruct (w_write wr _ nl); simpl; intuition discriminate.
  - pose proof (S_trace_ok env l level f args wr j Hl Hw Hm) as T.
    cbv zeta in T. rewrite T. eexists. split; [reflexivity|].
    split; [discriminate|]. intros HF. rewrite HF.
    destruct (w_write wr [] (j ++ nl)); simpl; intuition discriminate.
Qed.

Lemma P_outcome env l level f args wr :
  Plain.minLevel l <= level -> Plain.w l = Some wr ->
  exists tr,
    run (Plain.logMsg env l level f args)
      = (if level =? FATAL then Exited 1 else Done tt, ELock :: tr) /\
    writes_of tr <> [] /\
    ((level =? FATAL) = true -> ~ In EUnlock tr).
Proof.
  intros Hl Hw.
  pose proof (P_trace env l level f args wr Hl Hw) as T.
  cbv zeta in T. rewrite T. eexists. split; [reflexivity|].
  split; [discriminate|]. intros HF. rewrite HF.
  destruct (w_write wr [] _); simpl; intuition discriminate.
Qed.

Lemma S_not_fatal_no_exit env l level f args code :
  level <> FATAL -> fst (run (Structured.logMsg env l level f args)) <> Exited code.
Proof.
  intros Hn. assert (HF : (level =? FATAL) = false) by (apply Z.eqb_neq; exact Hn).
  destruct (Z_gt_le_dec (Structured.minLevel l) level) as [Hg|Hle].
  - rewrite S_filtered by exact Hg. discriminate.
  - destruct (Structured.w l) as [wr|] eqn:Hw.
    + destruct (S_outcome env l level f args wr Hle Hw) as [tr [E _]].
      rewrite E, HF. discriminate.
    + rewrite S_trace_nil by assumption. discriminate.
Qed.

Lemma P_not_fatal_no_exit env l level f args code :
  level <> FATAL -> fst (run (Plain.logMsg env l level f args)) <> Exited code.
Proof.
  intros Hn. assert (HF : (level =? FATAL) = false) by (apply Z.eqb_neq; exact Hn).
  destruct (Z_gt_le_dec (Plain.minLevel l) level) as [Hg|Hle].
  - rewrite P_filtered by exact Hg. discriminate.
  - destruct (Plain.w l) as [wr|] eqn:Hw.
    + destruct (P_outcome env l level f args wr Hle Hw) as [tr [E _]].
      rewrite E, HF. discriminate.
    + rewrite P_trace_nil by assumption. discriminate.
Qed.

Lemma S_New_minLevel_range opts :
  DEBUG <= Structured.minLevel (Structured.New opts) <= FATAL.
Proof.
  unfold Structured.New.
  assert (H0 : DEBUG <= Structured.minLevel Structured.zero_logger <= FATAL)
    by (simpl; unfold DEBUG, FATAL; lia).
  revert H0. generalize Structured.zero_logger.
  induction opts as [|o r IH]; intros l0 H0; simpl; [exact H0|].
  apply IH. destruct o; simpl; auto using levelFromString_range.
Qed.

Lemma P_New_minLevel_range opts :
  DEBUG <= Plain.minLevel (Plain.New opts) <= FATAL.
Proof.
  unfold Plain.New.
  assert (H0 : DEBUG <= Plain.minLevel Plain.zero_logger <= FATAL)
    by (simpl; unfold DEBUG, FATAL; lia).
  revert H0. generalize Plain.zero_logger.
  induction opts as [|o r IH]; intros l0 H0; simpl; [exact H0|].
  apply IH. destruct o; simpl; auto using levelFromString_range.
Qed.

(* ------------------------------------------------------------------ *)
(** ** C1: level filtering and the writes of an emission *)

(** C1 (counterexample): an unfiltered INFO emission to a sink whose
    writes fail makes two non-empty writes, the record and the
    "failed to write to out" diagnostic, not exactly one. *)
Lemma C1_counterexample :
  Structured.minLevel (Structured.New [Structured.WithWriter (Some broken)]) <= INFO /\
  ~ (exists b, writes_of (snd (run (Structured.Info env0
        (Structured.New [Structured.WithWriter (Some broken)]) "x"))) = [b]).
Proof.
  split; [vm_compute; discriminate|].
  vm_compute. intros [b H]. discriminate.
Qed.

(** C1 (amended): for both renderings and each of the ten methods at level
    L on a logger with minimum M: if M > L the call returns with an empty
    trace (no lock, no write); otherwise it first takes the lock, and with
    a configured sink (and, structured, a record that serializes) its first
    write is the non-empty record ending in a newline, which is the only
    write when it succeeds and is followed by exactly one diagnostic write
    when it fails. *)
Theorem emission_filter_writes : forall env c,
  (forall l : Structured.Logger,
     let lvl := call_level c in
     let f := fst (call_args c) in
     let args := snd (call_args c) in
     (Structured.minLevel l > lvl -> run (Structured.emit env l c) = (Done tt, [])) /\
     (Structured.minLevel l <= lvl ->
        exists tr, snd (run (Structured.emit env l c)) = ELock :: tr) /\
     (forall wr j, Structured.minLevel l <= lvl -> Structured.w l = Some wr ->
        Structured.Marshal (Structured.fmt env l lvl f args) = inr j ->
        j ++ nl <> "" /\
        exists e, nth_error (snd (run (Structured.emit env l c))) 1
                    = Some (EWrite (j ++ nl) e) /\
          writes_of (snd (run (Structured.emit env l c)))
            = (j ++ nl) :: match e with
                           | Some err => ["failed to write to out: " ++ err]
                           | None => []
                           end)) /\
  (forall l : Plain.Logger,
     let lvl := call_level c in
     let b := Plain.fmt env l lvl (fst (call_args c)) (snd (call_args c)) in
     (Plain.minLevel l > lvl -> run (Plain.emit env l c) = (Done tt, [])) /\
     (Plain.minLevel l <= lvl ->
        exists tr, snd (run (Plain.emit env l c)) = ELock :: tr) /\
     (forall wr, Plain.minLevel l <= lvl -> Plain.w l = Some wr ->
        b <> "" /\
        exists e, nth_error (snd (run (Plain.emit env l c))) 1 = Some (EWrite b e) /\
          writes_of (snd (run (Plain.emit env l c)))
            = b :: match e with
                   | Some err => ["failed to write to out: " ++ err]
                   | None => []
                   end)).
Proof.
  intros env c. split.
  - intros l lvl f args. rewrite Structured_emit_logMsg. fold lvl f args.
    split; [apply S_filtered|]. split.
    + intros Hl. destruct (Structured.w l) as [wr|] eqn:Hw.
      * destruct (S_outcome env l lvl f args wr Hl Hw) as [tr [E _]].
        rewrite E. eexists; reflexivity.
      * rewrite S_trace_nil by assumption. eexists; reflexivity.
    + intros wr j Hl Hw Hm. split; [apply sappend_nl_nonempty|].
      pose proof (S_trace_ok env l lvl f args wr j Hl Hw Hm) as T.
      cbv zeta in T. rewrite T. simpl.
      exists (w_write wr [] (j ++ nl)). split; [reflexivity|].
      destruct (w_write wr [] (j ++ nl)); destruct (lvl =? FATAL); reflexivity.
  - intros l lvl b. rewrite Plain_emit_logMsg. fold lvl.
    split; [apply P_filtered|]. split.
    + intros Hl. destruct (Plain.w l) as [wr|] eqn:Hw.
      * destruct (P_outcome env l lvl (fst (call_args c)) (snd (call_args c)) wr Hl Hw)
          as [tr [E _]].
        rewrite E. eexists; reflexivity.
      * rewrite P_trace_nil by assumption. eexists; reflexivity.
    + intros wr Hl Hw. split.
      * destruct (P_fmt_ends_nl env l lvl (fst (call_args c)) (snd (call_args c)))
          as [p Hp]. fold b in Hp. rewrite Hp. apply sappend_nl_nonempty.
      * pose proof (P_trace env l lvl (fst (call_args c)) (snd (call_args c)) wr Hl Hw)
          as T.
        cbv zeta in T. fold b in T. rewrite T. simpl.
        exists (w_write wr [] b). split; [reflexivity|].
        destruct (w_write wr [] b); destruct (lvl =? FATAL); reflexivity.
Qed.

Lemma emission_filter_writes_witness :
  Structured.minLevel (Structured.New [Structured.WithWriter (Some buf)]) <= INFO /\
  writes_of (snd (run (Structured.emit env0
      (Structured.New [Structured.WithWriter (Some buf)]) (CInfof "n=%d" [AInt 1]))))
    = [render (JObj [("level", JStr "INFO"); ("msg", JStr "n=%d");
                     ("fields", JArr [JNum 1]); ("timestamp", JStr (now env0))]) ++ nl].
Proof.
  split; [vm_compute; discriminate|].
  destruct (emission_filter_writes env0 (CInfof "n=%d" [AInt 1])) as [HS _].
  destruct (HS (Structured.New [Structured.WithWriter (Some buf)])) as [_ [_ H3]].
  destruct (H3 buf (render (JObj [("level", JStr "INFO"); ("msg", JStr "n=%d");
                     ("fields", JArr [JNum 1]); ("timestamp", JStr (now env0))])))
    as [_ [e [He Hw]]]; [vm_compute; discriminate | reflexivity | reflexivity |].
  rewrite Hw. vm_compute in He. injection He as <-. reflexivity.
Defined.

(* ------------------------------------------------------------------ *)
(** ** C2: FATAL terminates the process *)

(** C2 (counterexample): [New()] with no option has a nil sink; [Fatal]
    passes the filter, but the write through the nil writer panics, so
    [os.Exit(1)] is never reached. *)
Lemma C2_counterexample :
  Structured.minLevel (Structured.New []) <= FATAL /\
  run (Structured.Fatal env0 (Structured.New []) "boom") = (Panicked, [ELock; EUnlock]) /\
  fst (run (Structured.Fatal env0 (Structured.New []) "boom")) <> Exited 1.
Proof. vm_compute. split; [discriminate|]. split; [reflexivity | discriminate]. Qed.

(** C2 (amended): in both renderings, a Fatal or Fatalf call that passes
    the filter on a logger with a configured sink ends in [os.Exit(1)]
    after its write attempts, whatever the sink returned, and without the
    deferred unlock; with a nil sink it panics at the first write instead;
    a call at any other level never exits the process. *)
Theorem fatal_exits_after_write : forall env c,
  (forall (l : Structured.Logger) wr,
     call_level c = FATAL -> Structured.minLevel l <= FATAL -> Structured.w l = Some wr ->
     exists tr, run (Structured.emit env l c) = (Exited 1, ELock :: tr) /\
                writes_of tr <> [] /\ ~ In EUnlock tr) /\
  (forall l : Structured.Logger,
     call_level c = FATAL -> Structured.minLevel l <= FATAL -> Structured.w l = None ->
     run (Structured.emit env l c) = (Panicked, [ELock; EUnlock])) /\
  (forall (l : Structured.Logger) code,
     call_level c <> FATAL -> fst (run (Structured.emit env l c)) <> Exited code) /\
  (forall (l : Plain.Logger) wr,
     call_level c = FATAL -> Plain.minLevel l <= FATAL -> Plain.w l = Some wr ->
     exists tr, run (Plain.emit env l c) = (Exited 1, ELock :: tr) /\
                writes_of tr <> [] /\ ~ In EUnlock tr) /\
  (forall l : Plain.Logger,
     call_level c = FATAL -> Plain.minLevel l <= FATAL -> Plain.w l = None ->
     run (Plain.emit env l c) = (Panicked, [ELock; EUnlock])) /\
  (forall (l : Plain.Logger) code,
     call_level c <> FATAL -> fst (run (Plain.emit env l c)) <> Exited code).
Proof.
  intros env c.
  split; [|split; [|split; [|split; [|split]]]].
  - intros l wr Hc Hl Hw. rewrite Structured_emit_logMsg, Hc.
    destruct (S_outcome env l FATAL (fst (call_args c)) (snd (call_args c)) wr Hl Hw)
      as [tr [E [Hn Hu]]].
    exists tr. rewrite E. split; [reflexivity|]. split; [exact Hn | apply Hu; reflexivity].
  - intros l Hc Hl Hw. rewrite Structured_emit_logMsg, Hc. apply S_trace_nil; assumption.
  - intros l code Hc. rewrite Structured_emit_logMsg. apply S_not_fatal_no_exit. exact Hc.
  - intros l wr Hc Hl Hw. rewrite Plain_emit_logMsg, Hc.
    destruct (P_outcome env l FATAL (fst (call_args c)) (snd (call_args c)) wr Hl Hw)
      as [tr [E [Hn Hu]]].
    exists tr. rewrite E. split; [reflexivity|]. split; [exact Hn | apply Hu; reflexivity].
  - intros l Hc Hl Hw. rewrite Plain_emit_logMsg, Hc. apply P_trace_nil; assumption.
  - intros l code Hc. rewrite Plain_emit_logMsg. apply P_not_fatal_no_exit. exact Hc.
Qed.

Lemma fatal_exits_after_write_witness :
  exists tr, run (Structured.emit env0
                 (Structured.New [Structured.WithWriter (Some broken)]) (CFatal "boom"))
             = (Exited 1, ELock :: tr) /\ writes_of tr <> [] /\ ~ In EUnlock tr.
Proof.
  destruct (fatal_exits_after_write env0 (CFatal "boom")) as [H _].
  apply (H _ broken); [reflexivity | vm_compute; discriminate | reflexivity].
Defined.

(* ------------------------------------------------------------------ *)
(** ** C10: the threshold of a constructed logger *)

(** C10 (counterexample): a logger from [New()] never filters FATAL, but
    its nil sink makes [Fatalf] panic at the write, so the call does not
    proceed to process termination through [os.Exit]. *)
Lemma C10_counterexample :
  ~ (exists code,
       fst (run (Structured.Fatalf env0 (Structured.New []) "boom %d" [AInt 1]))
       = Exited code).
Proof. vm_compute. intros [code H]. discriminate. Qed.

(** C10 (amended): for every option list, [New] yields a threshold between
    DEBUG and FATAL, so a Fatal or Fatalf call is never filtered: it
    always takes the lock; with a configured sink it attempts its write and
    exits with status 1; with a nil sink the write attempt panics. *)
Theorem New_never_filters_fatal :
  (forall opts, DEBUG <= Structured.minLevel (Structured.New opts) <= FATAL) /\
  (forall opts, DEBUG <= Plain.minLevel (Plain.New opts) <= FATAL) /\
  (forall env opts c, call_level c = FATAL ->
     exists tr, snd (run (Structured.emit env (Structured.New opts) c)) = ELock :: tr) /\
  (forall env opts c wr, call_level c = FATAL ->
     Structured.w (Structured.New opts) = Some wr ->
     exists tr, run (Structured.emit env (Structured.New opts) c) = (Exited 1, ELock :: tr)
                /\ writes_of tr <> []) /\
  (forall env opts c, call_level c = FATAL -> Structured.w (Structured.New opts) = None ->
     run (Structured.emit env (Structured.New opts) c) = (Panicked, [ELock; EUnlock])) /\
  (forall env opts c wr, call_level c = FATAL -> Plain.w (Plain.New opts) = Some wr ->
     exists tr, run (Plain.emit env (Plain.New opts) c) = (Exited 1, ELock :: tr)
                /\ writes_of tr <> []) /\
  (forall env opts c, call_level c = FATAL -> Plain.w (Plain.New opts) = None ->
     run (Plain.emit env (Plain.New opts) c) = (Panicked, [ELock; EUnlock])).
Proof.
  split; [exact S_New_minLevel_range|].
  split; [exact P_New_minLevel_range|].
  split; [|split; [|split; [|split]]].
  - intros env opts c Hc. rewrite Structured_emit_logMsg, Hc.
    pose proof (proj2 (S_New_minLevel_range opts)) as Hl.
    destruct (Structured.w (Structured.New opts)) as [wr|] eqn:Hw.
    + destruct (S_outcome env _ FATAL (fst (call_args c)) (snd (call_args c)) wr Hl Hw)
        as [tr [E _]].
      rewrite E. eexists; reflexivity.
    + rewrite S_trace_nil by assumption. eexists; reflexivity.
  - intros env opts c wr Hc Hw. rewrite Structured_emit_logMsg, Hc.
    destruct (S_outcome env _ FATAL (fst (call_args c)) (snd (call_args c)) wr
                (proj2 (S_New_minLevel_range opts)) Hw) as [tr [E [Hn _]]].
    exists tr. rewrite E. split; [reflexivity | exact Hn].
  - intros env opts c Hc Hw. rewrite Structured_emit_logMsg, Hc.
    apply S_trace_nil; [apply S_New_minLevel_range | exact Hw].
  - intros env opts c wr Hc Hw. rewrite Plain_emit_logMsg, Hc.
    destruct (P_outcome env _ FATAL (fst (call_args c)) (snd (call_args c)) wr
                (proj2 (P_New_minLevel_range opts)) Hw) as [tr [E [Hn _]]].
    exists tr. rewrite E. split; [reflexivity | exact Hn].
  - intros env opts c Hc Hw. rewrite Plain_emit_logMsg, Hc.
    apply P_trace_nil; [apply P_New_minLevel_range | exact Hw].
Qed.

Lemma New_never_filters_fatal_witness :
  run (Structured.emit env0 (Structured.New [Structured.WithLevel "fatal"])
         (CFatalf "x" [])) = (Panicked, [ELock; EUnlock]).
Proof.
  destruct New_never_filters_fatal as [_ [_ [_ [_ [H _]]]]].
  apply H; reflexivity.
Defined.

(* ------------------------------------------------------------------ *)
(** ** The structured record *)

Lemma fmt_loop_entry env l level args en :
  let en' := Structured.fmt_loop env l level args en in
  Structured.en_Fields en' = app (Structured.en_Fields en) args /\
  Structured.en_Name en' = Structured.en_Name en /\
  Structured.en_Level en' = Structured.en_Level en /\
  Structured.en_Caller en' = Structured.en_Caller en /\
  Structured.en_Message en' = Structured.en_Message en /\
  Structured.en_Timestamp en' = Structured.en_Timestamp en.
Proof.
  revert en. induction args as [|a r IH]; intros en; simpl.
  - rewrite app_nil_r. repeat split.
  - cbv zeta.
    destruct ((level =? ERROR) || (level =? FATAL)), (Structured.stacktrace l);
      match goal with
      | |- context [Structured.fmt_loop env l level r ?e] =>
          destruct (IH e) as [H1 [H2 [H3 [H4 [H5 H6]]]]]
      end;
      rewrite H1, H2, H3, H4, H5, H6; simpl; rewrite <- ?app_assoc; repeat split.
Qed.

Lemma fmt_entry env l level f args :
  let en := Structured.fmt env l level f args in
  Structured.en_Fields en = args /\
  Structured.en_Name en = Structured.name l /\
  Structured.en_Level en = level_string level /\
  Structured.en_Caller en = "" /\
  Structured.en_Message en = f /\
  Structured.en_Timestamp en = now env.
Proof. apply fmt_loop_entry. Qed.

Lemma encode_all_Forall2 args js :
  encode_all args = inr js -> Forall2 (fun a j => any_to_json a = inr j) args js.
Proof.
  revert js. induction args as [|a r IH]; intros js H; simpl in H.
  - injection H as <-. constructor.
  - destruct (any_to_json a) as [e|j] eqn:Ha; [discriminate|].
    destruct (encode_all r) as [e|js'] eqn:Hr; [discriminate|].
    injection H as <-. constructor; [exact Ha | apply IH; reflexivity].
Qed.

(** The object [json.Marshal] builds for a call whose arguments encode. *)
Lemma entry_json_fmt env l level f args js :
  encode_all args = inr js ->
  Structured.entry_json (Structured.fmt env l level f args) =
    inr (JObj (app (Structured.omit_empty "name" (Structured.name l))
              (app [("level", JStr (level_string level))]
              (app (Structured.omit_empty "msg" f)
              (app (match args with [] => [] | _ => [("fields", JArr js)] end)
              (app (Structured.omit_empty "stacktrace"
                      (Structured.en_Stacktrace (Structured.fmt env l level f args)))
                   [("timestamp", JStr (now env))])))))).
Proof.
  intros Hjs. destruct (fmt_entry env l level f args) as [H1 [H2 [H3 [H4 [H5 H6]]]]].
  unfold Structured.entry_json. rewrite H1, H2, H3, H4, H5, H6, Hjs. reflexivity.
Qed.

(** C3 (code bug): with the stacktrace flag on, an ERROR call through
    [Errorf] with no variadic argument gets no stack trace, because the
    trace is captured inside the loop over the arguments; the same message
    through [Error], which passes one argument, gets it. *)
Lemma C3_errorf_no_args_no_stacktrace :
  Structured.stacktrace svc_logger = true /\
  Structured.en_Stacktrace (Structured.fmt env0 svc_logger ERROR "boom" []) = "" /\
  Structured.en_Stacktrace (Structured.fmt env0 svc_logger ERROR "%s" [AString "boom"])
    = Structured.stack_text env0 ERROR /\
  run (Structured.Errorf env0 svc_logger "boom" [])
    = (Done tt, [ELock; EWrite (render (JObj [("name", JStr "svc"); ("level", JStr "ERROR");
                                             ("msg", JStr "boom");
                                             ("timestamp", JStr (now env0))]) ++ nl) None;
                 EUnlock]).
Proof. repeat split; vm_compute; reflexivity. Qed.

(** C4 (code bug): when the record cannot be serialized, [logMsg] writes
    the diagnostic and then goes on to write the record's (empty) bytes with
    their newline; when that second write fails, a second diagnostic
    follows. *)
Lemma C4_marshal_failure_still_writes_record :
  run (Structured.Infof env0 (Structured.New [Structured.WithWriter (Some buf)])
         "x=%v" [AChan "chan int" 49152])
    = (Done tt,
       [ELock;
        EWrite "failed to marshal message json: unsupported type: chan int original message x=%v" None;
        EWrite nl None; EUnlock]) /\
  run (Structured.Infof env0 (Structured.New [Structured.WithWriter (Some broken)])
         "x=%v" [AChan "chan int" 49152])
    = (Done tt,
       [ELock;
        EWrite "failed to marshal message json: unsupported type: chan int original message x=%v"
               (Some "disk full");
        EWrite nl (Some "disk full");
        EWrite "failed to write to out: disk full" (Some "disk full"); EUnlock]).
Proof. split; vm_compute; reflexivity. Qed.

(** C5 (counterexample): [name] and [msg] carry [omitempty]: a logger
    without a name emitting [Infof("")] writes an object with only
    [level] and [timestamp]. *)
Lemma C5_counterexample :
  Structured.entry_json
    (Structured.fmt env0 (Structured.New [Structured.WithWriter (Some buf)]) INFO "" [])
    = inr (JObj [("level", JStr "INFO"); ("timestamp", JStr (now env0))]) /\
  writes_of (snd (run (Structured.Infof env0
               (Structured.New [Structured.WithWriter (Some buf)]) "" [])))
    = [render (JObj [("level", JStr "INFO"); ("timestamp", JStr (now env0))]) ++ nl] /\
  ~ In "name" (json_keys (JObj [("level", JStr "INFO"); ("timestamp", JStr (now env0))])) /\
  ~ In "msg" (json_keys (JObj [("level", JStr "INFO"); ("timestamp", JStr (now env0))])).
Proof.
  split; [vm_compute; reflexivity|]. split; [vm_compute; reflexivity|].
  simpl. split; intuition discriminate.
Qed.

(** C5 (amended): when every variadic argument is encodable, the line
    written for the record is one JSON object followed by a newline, whose
    keys come in the order name, level, msg, fields, stacktrace, timestamp;
    name, msg, fields and stacktrace are omitted when empty, level and
    timestamp are always present, caller never appears (it is never set);
    fields holds the arguments in call order, each as its own JSON value. *)
Theorem structured_record_shape : forall env (l : Structured.Logger) level f args js,
  encode_all args = inr js ->
  let kvs := app (Structured.omit_empty "name" (Structured.name l))
             (app [("level", JStr (level_string level))]
             (app (Structured.omit_empty "msg" f)
             (app (match args with [] => [] | _ => [("fields", JArr js)] end)
             (app (Structured.omit_empty "stacktrace"
                     (Structured.en_Stacktrace (Structured.fmt env l level f args)))
                  [("timestamp", JStr (now env))])))) in
  Forall2 (fun a j => any_to_json a = inr j) args js /\
  Structured.Marshal (Structured.fmt env l level f args) = inr (render (JObj kvs)) /\
  (forall wr, Structured.minLevel l <= level -> Structured.w l = Some wr ->
     exists e, nth_error (snd (run (Structured.logMsg env l level f args))) 1
               = Some (EWrite (render (JObj kvs) ++ nl) e)).
Proof.
  intros env l level f args js Hjs kvs.
  assert (HM : Structured.Marshal (Structured.fmt env l level f args) = inr (render (JObj kvs)))
    by (unfold Structured.Marshal; rewrite (entry_json_fmt env l level f args js Hjs);
        reflexivity).
  split; [apply encode_all_Forall2; exact Hjs|]. split; [exact HM|].
  intros wr Hl Hw.
  pose proof (S_trace_ok env l level f args wr _ Hl Hw HM) as T.
  cbv zeta in T. rewrite T. eexists. reflexivity.
Qed.

Lemma structured_record_shape_witness :
  Structured.Marshal (Structured.fmt env0 svc_logger INFO "a=%v b=%v" [AString "x"; AInt 2])
    = inr (render (JObj [("name", JStr "svc"); ("level", JStr "INFO");
                         ("msg", JStr "a=%v b=%v");
                         ("fields", JArr [JStr "x"; JNum 2]);
                         ("timestamp", JStr (now env0))])).
Proof.
  destruct (structured_record_shape env0 svc_logger INFO "a=%v b=%v" [AString "x"; AInt 2]
              [JStr "x"; JNum 2] eq_refl) as [_ [H _]].
  exact H.
Defined.

(** C9: each plain method of the structured rendering passes "%s" as the
    template and its message as the only argument, so the record has
    msg = "%s" and fields = [message]. *)
Theorem structured_plain_method_record : forall env (l : Structured.Logger) m,
  (Structured.Debug env l m = Structured.logMsg env l DEBUG "%s" [AString m] /\
   Structured.Info env l m = Structured.logMsg env l INFO "%s" [AString m] /\
   Structured.Warn env l m = Structured.logMsg env l WARN "%s" [AString m] /\
   Structured.Error env l m = Structured.logMsg env l ERROR "%s" [AString m] /\
   Structured.Fatal env l m = Structured.logMsg env l FATAL "%s" [AString m]) /\
  (forall lvl,
     Structured.en_Message (Structured.fmt env l lvl "%s" [AString m]) = "%s" /\
     Structured.en_Fields (Structured.fmt env l lvl "%s" [AString m]) = [AString m] /\
     Structured.Marshal (Structured.fmt env l lvl "%s" [AString m])
       = inr (render (JObj
           (app (Structured.omit_empty "name" (Structured.name l))
           (app [("level", JStr (level_string lvl)); ("msg", JStr "%s");
                 ("fields", JArr [JStr m])]
           (app (Structured.omit_empty "stacktrace"
                   (Structured.en_Stacktrace (Structured.fmt env l lvl "%s" [AString m])))
                [("timestamp", JStr (now env))])))))).
Proof.
  intros env l m. split; [repeat split|].
  intros lvl. destruct (fmt_entry env l lvl "%s" [AString m]) as [H1 [_ [_ [_ [H5 _]]]]].
  split; [exact H5|]. split; [exact H1|].
  unfold Structured.Marshal.
  rewrite (entry_json_fmt env l lvl "%s" [AString m] [JStr m] eq_refl). reflexivity.
Qed.

(* ------------------------------------------------------------------ *)
(** ** C7: plain versus f-suffixed methods in the plain-text rendering *)

(** C7: in the plain-text rendering a plain method's message is written
    verbatim, printf verbs included, while an f-suffixed method's line
    carries [fmt.Sprintf] of its template and arguments; the line written
    is that rendering. *)
Theorem plain_text_literal_and_substituted : forall env (l : Plain.Logger) lvl m f args,
  Plain.fmt env l lvl "%s" [AString m] = Plain.header env l lvl ++ m ++ plain_tail env lvl /\
  Plain.fmt env l lvl f args = Plain.header env l lvl ++ Sprintf f args ++ plain_tail env lvl /\
  (Plain.Debug env l m = Plain.logMsg env l DEBUG "%s" [AString m] /\
   Plain.Info env l m = Plain.logMsg env l INFO "%s" [AString m] /\
   Plain.Warn env l m = Plain.logMsg env l WARN "%s" [AString m] /\
   Plain.Error env l m = Plain.logMsg env l ERROR "%s" [AString m] /\
   Plain.Fatal env l m = Plain.logMsg env l FATAL "%s" [AString m]) /\
  (Plain.Debugf env l f args = Plain.logMsg env l DEBUG f args /\
   Plain.Infof env l f args = Plain.logMsg env l INFO f args /\
   Plain.Warnf env l f args = Plain.logMsg env l WARN f args /\
   Plain.Errorf env l f args = Plain.logMsg env l ERROR f args /\
   Plain.Fatalf env l f args = Plain.logMsg env l FATAL f args) /\
  (forall wr, Plain.minLevel l <= lvl -> Plain.w l = Some wr ->
     exists e, nth_error (snd (run (Plain.logMsg env l lvl "%s" [AString m]))) 1
               = Some (EWrite (Plain.header env l lvl ++ m ++ plain_tail env lvl) e)).
Proof.
  intros env l lvl m f args.
  assert (Hf : forall f' args',
             Plain.fmt env l lvl f' args'
             = Plain.header env l lvl ++ Sprintf f' args' ++ plain_tail env lvl).
  { intros f' args'. unfold Plain.fmt, plain_tail.
    destruct ((lvl =? ERROR) || (lvl =? FATAL)); rewrite ?sappend_assoc; reflexivity. }
  assert (Hs : Plain.fmt env l lvl "%s" [AString m]
               = Plain.header env l lvl ++ m ++ plain_tail env lvl)
    by (rewrite Hf, Sprintf_s; reflexivity).
  split; [exact Hs|]. split; [apply Hf|]. split; [repeat split|]. split; [repeat split|].
  intros wr Hl Hw.
  pose proof (P_trace env l lvl "%s" [AString m] wr Hl Hw) as T.
  cbv zeta in T. rewrite T, Hs. eexists. reflexivity.
Qed.

Lemma plain_text_literal_and_substituted_witness :
  exists e, nth_error (snd (run (Plain.logMsg env0 (Plain.New [Plain.WithWriter (Some buf)])
                                 INFO "%s" [AString "n=%d"]))) 1
            = Some (EWrite (Plain.header env0 (Plain.New [Plain.WithWriter (Some buf)]) INFO
                            ++ "n=%d" ++ plain_tail env0 INFO) e).
Proof.
  destruct (plain_text_literal_and_substituted env0 (Plain.New [Plain.WithWriter (Some buf)])
              INFO "n=%d" "" []) as [_ [_ [_ [_ H]]]].
  apply (H buf); [vm_compute; discriminate | reflexivity].
Defined.

(* ------------------------------------------------------------------ *)
(** ** C8: construction *)

Lemma option_holds_apply o l : option_holds o (Structured.apply_option o l).
Proof. destruct o; reflexivity. Qed.

Lemma option_holds_other o o' l :
  option_kind o' <> option_kind o -> option_holds o l ->
  option_holds o (Structured.apply_option o' l).
Proof. intros Hk H. destruct o, o'; simpl in *; congruence. Qed.

Lemma New_app pre post :
  Structured.New (app pre post)
  = fold_left (fun l o => Structured.apply_option o l) post (Structured.New pre).
Proof. unfold Structured.New. apply fold_left_app. Qed.

(** C8: [New] starts from the zero Logger (nil sink, empty name, threshold
    DEBUG that filters none of the ten methods, both flags false) and
    applies its options in argument order, so the last option of each kind
    decides that field. *)
Theorem New_options_last_wins :
  (Structured.New [] = Structured.zero_logger /\
   Structured.w (Structured.New []) = None /\
   Structured.name (Structured.New []) = "" /\
   Structured.minLevel (Structured.New []) = DEBUG /\
   Structured.includeCaller (Structured.New []) = false /\
   Structured.stacktrace (Structured.New []) = false /\
   (forall c, ~ Structured.minLevel (Structured.New []) > call_level c)) /\
  (forall pre post,
     Structured.New (app pre post)
     = fold_left (fun l o => Structured.apply_option o l) post (Structured.New pre)) /\
  (forall pre o post,
     Forall (fun o' => option_kind o' <> option_kind o) post ->
     option_holds o (Structured.New (app pre (o :: post)))).
Proof.
  split; [|split; [exact New_app|]].
  - repeat split. intros c. pose proof (call_level_range c). simpl. unfold DEBUG in *. lia.
  - intros pre o post Hpost. rewrite New_app. simpl.
    generalize (option_holds_apply o (Structured.New pre)).
    generalize (Structured.apply_option o (Structured.New pre)).
    induction Hpost as [|o' r Hk Hr IH]; intros l Hl; simpl; [exact Hl|].
    apply IH. apply option_holds_other; assumption.
Qed.

Lemma New_options_last_wins_witness :
  Structured.minLevel (Structured.New [Structured.WithLevel "warn"; Structured.WithName "a";
                                       Structured.WithLevel "ERROR"; Structured.WithName "b"])
  = ERROR.
Proof.
  destruct New_options_last_wins as [_ [_ H]].
  apply (H [Structured.WithLevel "warn"; Structured.WithName "a"]
           (Structured.WithLevel "ERROR") [Structured.WithName "b"]).
  repeat constructor; discriminate.
Defined.

Lemma levelFromString_ToLower_witness :
  In (ascii_lower "WaRn") level_keywords /\ ToLower "WaRn" = ascii_lower "WaRn".
Proof.
  split; [vm_compute; auto|].
  destruct (levelFromString_ToLower "WaRn") as [_ [_ [_ [_ [_ [H _]]]]]].
  apply H. vm_compute. auto.
Defined.

(* ================================================================== *)
(** * Further properties of the code *)

(** ** Levels and colors *)

Lemma level_cases L : DEBUG <= L <= FATAL ->
  L = DEBUG \/ L = INFO \/ L = WARN \/ L = ERROR \/ L = FATAL.
Proof. unfold DEBUG, INFO, WARN, ERROR, FATAL. lia. Qed.

(** [level.string()] and [levelFromString] are inverse on the five levels,
    so [WithLevel] of a level's name sets exactly that level; every other
    [Level] value prints as "DEBUG". *)
Theorem level_string_roundtrip :
  (forall L, DEBUG <= L <= FATAL -> levelFromString (level_string L) = L) /\
  (forall L, DEBUG <= L <= FATAL ->
     Structured.minLevel (Structured.New [Structured.WithLevel (level_string L)]) = L) /\
  (forall L, L < DEBUG \/ FATAL < L -> level_string L = "DEBUG").
Proof.
  split; [|split].
  - intros L HL. destruct (level_cases L HL) as [-> | [-> | [-> | [-> | ->]]]]; reflexivity.
  - intros L HL. destruct (level_cases L HL) as [-> | [-> | [-> | [-> | ->]]]]; reflexivity.
  - intros L HL. unfold level_string, DEBUG, INFO, WARN, ERROR, FATAL in *.
    rewrite (proj2 (Z.eqb_neq L 1)), (proj2 (Z.eqb_neq L 2)),
            (proj2 (Z.eqb_neq L 3)), (proj2 (Z.eqb_neq L 4)) by lia.
    reflexivity.
Qed.

Lemma level_string_roundtrip_witness :
  levelFromString (level_string ERROR) = ERROR.
Proof.
  apply (proj1 level_string_roundtrip). unfold DEBUG, ERROR, FATAL. lia.
Defined.

(** [colorFromLevel] gives the five levels five different colors, none of
    them the reset sequence, and every other [Level] value the reset. *)
Theorem colorFromLevel_distinct :
  (forall a b, DEBUG <= a <= FATAL -> DEBUG <= b <= FATAL ->
     colorFromLevel a = colorFromLevel b -> a = b) /\
  (forall L, DEBUG <= L <= FATAL -> colorFromLevel L <> colorReset) /\
  (forall L, L < DEBUG \/ FATAL < L -> colorFromLevel L = colorReset).
Proof.
  split; [|split].
  - intros a b Ha Hb H.
    destruct (level_cases a Ha) as [-> | [-> | [-> | [-> | ->]]]];
    destruct (level_cases b Hb) as [-> | [-> | [-> | [-> | ->]]]];
    try reflexivity; vm_compute in H; discriminate.
  - intros L HL. destruct (level_cases L HL) as [-> | [-> | [-> | [-> | ->]]]];
    vm_compute; discriminate.
  - intros L HL. unfold colorFromLevel, DEBUG, INFO, WARN, ERROR, FATAL in *.
    rewrite (proj2 (Z.eqb_neq L 0)), (proj2 (Z.eqb_neq L 1)), (proj2 (Z.eqb_neq L 2)),
            (proj2 (Z.eqb_neq L 3)), (proj2 (Z.eqb_neq L 4)) by lia.
    reflexivity.
Qed.

Lemma colorFromLevel_distinct_witness : colorFromLevel 7 = colorReset.
Proof.
  apply (proj2 (proj2 colorFromLevel_distinct)). right. unfold FATAL. lia.
Defined.

(** ** The caller flag and the stack trace of a structured record *)

Lemma fmt_loop_flags env l1 l2 level args en :
  Structured.stacktrace l1 = Structured.stacktrace l2 ->
  Structured.fmt_loop env l1 level args en = Structured.fmt_loop env l2 level args en.
Proof.
  intros H. revert en. induction args as [|a r IH]; intros en; simpl; [reflexivity|].
  rewrite H. apply IH.
Qed.

(** [WithCaller] has no observable effect: the flag it sets is read by no
    code path, so every emission behaves the same whatever its value. *)
Theorem includeCaller_unused : forall env l b level f args,
  run (Structured.logMsg env (Structured.apply_option (Structured.WithCaller b) l)
         level f args)
  = run (Structured.logMsg env l level f args).
Proof.
  intros env l b level f args.
  assert (Hf : Structured.fmt env (Structured.apply_option (Structured.WithCaller b) l)
                 level f args = Structured.fmt env l level f args)
    by (unfold Structured.fmt; apply fmt_loop_flags; reflexivity).
  unfold Structured.logMsg. rewrite Hf. reflexivity.
Qed.

Lemma fmt_loop_stacktrace env l level args en :
  Structured.en_Stacktrace (Structured.fmt_loop env l level args en) =
    match args with
    | [] => Structured.en_Stacktrace en
    | _ => if ((level =? ERROR) || (level =? FATAL)) && Structured.stacktrace l
           then Structured.stack_text env level else Structured.en_Stacktrace en
    end.
Proof.
  revert en. induction args as [|a r IH]; intros en; [reflexivity|].
  simpl. rewrite IH.
  destruct r; destruct ((level =? ERROR) || (level =? FATAL)), (Structured.stacktrace l);
    reflexivity.
Qed.

(** A structured record carries the stack trace exactly when its level is
    ERROR or FATAL, the stacktrace flag is on and the call passed at least
    one variadic argument; otherwise the field is empty (and omitted). *)
Theorem structured_stacktrace_rule : forall env l level f args,
  (((level = ERROR \/ level = FATAL) /\ Structured.stacktrace l = true /\ args <> []) ->
   Structured.en_Stacktrace (Structured.fmt env l level f args)
     = Structured.stack_text env level /\
   Structured.stack_text env level <> "") /\
  (~ ((level = ERROR \/ level = FATAL) /\ Structured.stacktrace l = true /\ args <> []) ->
   Structured.en_Stacktrace (Structured.fmt env l level f args) = "").
Proof.
  intros env l level f args. unfold Structured.fmt. rewrite fmt_loop_stacktrace. simpl.
  split.
  - intros [Hl [Hs Ha]]. split; [|discriminate].
    destruct args as [|a r]; [congruence|].
    rewrite Hs. destruct Hl as [-> | ->]; reflexivity.
  - intros Hn. destruct args as [|a r]; [reflexivity|].
    destruct ((level =? ERROR) || (level =? FATAL)) eqn:E1; [|reflexivity].
    destruct (Structured.stacktrace l) eqn:E2; [|reflexivity].
    exfalso. apply Hn. split; [|split; [reflexivity | discriminate]].
    apply orb_true_iff in E1. destruct E1 as [E|E]; apply Z.eqb_eq in E; auto.
Qed.

Lemma structured_stacktrace_rule_witness :
  Structured.en_Stacktrace (Structured.fmt env0 svc_logger FATAL "x=%d" [AInt 1])
    = Structured.stack_text env0 FATAL /\
  Structured.en_Stacktrace (Structured.fmt env0 svc_logger WARN "x=%d" [AInt 1]) = "".
Proof.
  split.
  - apply (proj1 (structured_stacktrace_rule env0 svc_logger FATAL "x=%d" [AInt 1])).
    split; [right; reflexivity | split; [reflexivity | discriminate]].
  - apply (proj2 (structured_stacktrace_rule env0 svc_logger WARN "x=%d" [AInt 1])).
    intros [[H|H] _]; discriminate.
Defined.

(** ** Serialization failure *)

Lemma encode_all_error args e :
  encode_all args = inl e <->
  exists pre ty addr post,
    args = app pre (AChan ty addr :: post) /\
    forallb (fun a => negb (is_chan a)) pre = true /\
    e = "json: unsupported type: " ++ ty.
Proof.
  revert e. induction args as [|a r IH]; intros e; split.
  - discriminate.
  - intros [pre [ty [addr [post [E _]]]]]. destruct pre; discriminate.
  - intros H. destruct a as [s|n|b| |ty addr]; simpl in H;
      try (destruct (encode_all r) as [e'|js] eqn:Er; inversion H; subst;
           destruct (proj1 (IH e) eq_refl) as [pre [ty [addr [post [E1 [E2 E3]]]]]];
           subst; eexists (_ :: pre), ty, addr, post; split; [reflexivity|];
           split; [exact E2 | reflexivity]).
    inversion H; subst. exists [], ty, addr, r. repeat split.
  - intros [pre [ty [addr [post [E1 [E2 E3]]]]]].
    destruct pre as [|p pre]; simpl in E1; inversion E1; subst; [reflexivity|].
    simpl in E2. apply andb_prop in E2. destruct E2 as [Hp E2].
    assert (Hr : encode_all (app pre (AChan ty addr :: post))
                 = inl ("json: unsupported type: " ++ ty))
      by (apply IH; exists pre, ty, addr, post; repeat split; exact E2).
    destruct p; simpl in Hp |- *; try discriminate; rewrite Hr; reflexivity.
Qed.

(** [json.Marshal] of a structured record fails exactly when one of the
    call's variadic arguments is a value it cannot encode, and the error it
    returns is the one for the first such argument; the message and the
    logger's fields never make it fail. *)
Theorem structured_marshal_fails_iff_chan : forall env l level f args e,
  Structured.Marshal (Structured.fmt env l level f args) = inl e <->
  exists pre ty addr post,
    args = app pre (AChan ty addr :: post) /\
    forallb (fun a => negb (is_chan a)) pre = true /\
    e = "json: unsupported type: " ++ ty.
Proof.
  intros env l level f args e. rewrite <- encode_all_error.
  unfold Structured.Marshal, Structured.entry_json.
  rewrite (proj1 (fmt_entry env l level f args)).
  destruct (encode_all args) as [e'|js]; split; intros H; congruence.
Qed.

(** ** Lock discipline and number of writes *)




(** The two renderings agree on how a call ends: filtered calls return,
    a nil sink panics, otherwise FATAL exits with status 1 and every other
    level returns, whatever the sink answers. *)
Theorem renderings_same_outcome : forall env ls lp level f args,
  Structured.minLevel ls = Plain.minLevel lp ->
  Structured.w ls = Plain.w lp ->
  fst (run (Structured.logMsg env ls level f args))
  = fst (run (Plain.logMsg env lp level f args)).
Proof.
  intros env ls lp level f args Hm Hw.
  destruct (Z_gt_le_dec (Structured.minLevel ls) level) as [Hg|Hle].
  - rewrite S_filtered, P_filtered by lia. reflexivity.
  - destruct (Structured.w ls) as [wr|] eqn:Hws.
    + destruct (S_outcome env ls level f args wr Hle Hws) as [t1 [E1 _]].
      destruct (P_outcome env lp level f args wr ltac:(lia) (eq_sym Hw)) as [t2 [E2 _]].
      rewrite E1, E2. reflexivity.
    + rewrite S_trace_nil, P_trace_nil by (auto; lia). reflexivity.
Qed.

Lemma renderings_same_outcome_witness :
  fst (run (Structured.logMsg env0 svc_logger FATAL "x" []))
  = fst (run (Plain.logMsg env0 (Plain.New [Plain.WithWriter (Some buf)]) FATAL "x" [])).
Proof.
  apply (renderings_same_outcome env0 svc_logger
           (Plain.New [Plain.WithWriter (Some buf)]) FATAL "x" []);
    reflexivity.
Defined.

(** ** The configuration of the package tests *)

(** With the options of the tests ([WithLevel s], [WithName n], then
    [WithWriter] of a buffer), a call writes nothing exactly when its
    method's level is below the level named by [s], in both renderings. *)
Theorem test_options_filter : forall env s n wr c,
  (writes_of (snd (run (Structured.emit env
       (Structured.New [Structured.WithLevel s; Structured.WithName n;
                        Structured.WithWriter (Some wr)]) c))) = []
   <-> call_level c < levelFromString s) /\
  (writes_of (snd (run (Plain.emit env
       (Plain.New [Plain.WithLevel s; Plain.WithName n;
                   Plain.WithWriter (Some wr)]) c))) = []
   <-> call_level c < levelFromString s).
Proof.
  intros env s n wr c. split.
  - rewrite Structured_emit_logMsg.
    set (l := Structured.New _).
    assert (Hm : Structured.minLevel l = levelFromString s) by reflexivity.
    assert (Hw : Structured.w l = Some wr) by reflexivity.
    split; intros H.
    + destruct (Z_gt_le_dec (levelFromString s) (call_level c)) as [Hg|Hle]; [lia|].
      exfalso. rewrite <- Hm in Hle.
      destruct (S_outcome env l _ (fst (call_args c)) (snd (call_args c)) wr Hle Hw)
        as [tr [E [Hne _]]].
      rewrite E in H. simpl in H. contradiction.
    + rewrite S_filtered by lia. reflexivity.
  - rewrite Plain_emit_logMsg.
    set (l := Plain.New _).
    assert (Hm : Plain.minLevel l = levelFromString s) by reflexivity.
    assert (Hw : Plain.w l = Some wr) by reflexivity.
    split; intros H.
    + destruct (Z_gt_le_dec (levelFromString s) (call_level c)) as [Hg|Hle]; [lia|].
      exfalso. rewrite <- Hm in Hle.
      destruct (P_outcome env l _ (fst (call_args c)) (snd (call_args c)) wr Hle Hw)
        as [tr [E [Hne _]]].
      rewrite E in H. simpl in H. contradiction.
    + rewrite P_filtered by lia. reflexivity.
Qed.

(** ** Construction of a plain-text Logger *)

Lemma plain_option_holds_apply o l : plain_option_holds o (Plain.apply_option o l).
Proof. destruct o; reflexivity. Qed.

Lemma plain_option_holds_other o o' l :
  plain_option_kind o' <> plain_option_kind o -> plain_option_holds o l ->
  plain_option_holds o (Plain.apply_option o' l).
Proof. intros Hk H. destruct o, o'; simpl in *; congruence. Qed.

Lemma Plain_New_app pre post :
  Plain.New (app pre post)
  = fold_left (fun l o => Plain.apply_option o l) post (Plain.New pre).
Proof. unfold Plain.New. apply fold_left_app. Qed.

(** The plain-text [New] starts from a Logger with a nil sink, an empty
    name and the DEBUG threshold, applies its options in order, and the
    last option of each kind decides that field. *)
Theorem plain_New_last_wins :
  Plain.New [] = {| Plain.w := None; Plain.minLevel := DEBUG; Plain.name := "" |} /\
  (forall pre o post,
     Forall (fun o' => plain_option_kind o' <> plain_option_kind o) post ->
     plain_option_holds o (Plain.New (app pre (o :: post)))).
Proof.
  split; [reflexivity|].
  intros pre o post Hpost. rewrite Plain_New_app. simpl.
  generalize (plain_option_holds_apply o (Plain.New pre)).
  generalize (Plain.apply_option o (Plain.New pre)).
  induction Hpost as [|o' r Hk Hr IH]; intros l Hl; simpl; [exact Hl|].
  apply IH. apply plain_option_holds_other; assumption.
Qed.

Lemma plain_New_last_wins_witness :
  Plain.name (Plain.New [Plain.WithName "a"; Plain.WithLevel "warn";
                         Plain.WithName "b"; Plain.WithLevel "error"]) = "b".
Proof.
  apply ((proj2 plain_New_last_wins) [Plain.WithName "a"; Plain.WithLevel "warn"]
           (Plain.WithName "b") [Plain.WithLevel "error"]).
  repeat constructor. discriminate.
Defined.

(** ** The sink and the plain-text line *)

(** The sink changes a plain-text line in one way only: written to stdout
    or stdin it gets the level's color as a prefix, written anywhere else
    it does not; everything after is the same bytes. *)
Theorem plain_line_color_prefix : forall env w1 w2 m1 m2 n level f args,
  Plain.is_std w1 = true -> Plain.is_std w2 = false ->
  Plain.fmt env {| Plain.w := w1; Plain.minLevel := m1; Plain.name := n |} level f args
  = colorFromLevel level
    ++ Plain.fmt env {| Plain.w := w2; Plain.minLevel := m2; Plain.name := n |} level f args.
Proof.
  intros env w1 w2 m1 m2 n level f args H1 H2.
  unfold Plain.fmt, Plain.header. simpl. rewrite H1, H2. simpl.
  destruct ((level =? ERROR) || (level =? FATAL)); rewrite !sappend_assoc; reflexivity.
Qed.

Lemma plain_line_color_prefix_witness :
  Plain.fmt env0 {| Plain.w := Some {| w_id := Stdout; w_write := fun _ _ => None |};
                    Plain.minLevel := DEBUG; Plain.name := "svc" |} WARN "x=%d" [AInt 1]
  = colorFromLevel WARN
    ++ Plain.fmt env0 {| Plain.w := Some buf; Plain.minLevel := INFO; Plain.name := "svc" |}
         WARN "x=%d" [AInt 1].
Proof. apply plain_line_color_prefix; reflexivity. Defined.

(** ** A structured record is one line *)

Lemma nl_free_cons c s :
  nl_free (String c s) = negb (Ascii.eqb c (chr 10)) && nl_free s.
Proof. reflexivity. Qed.

Lemma nl_free_app a b : nl_free (a ++ b) = nl_free a && nl_free b.
Proof.
  induction a as [|c a IH]; [reflexivity|].
  simpl. rewrite !nl_free_cons, IH. apply andb_assoc.
Qed.

Lemma chr_not_nl b : 0 <= b < 256 -> b <> 10 -> Ascii.eqb (chr b) (chr 10) = false.
Proof.
  intros Hb Hn. destruct (Ascii.eqb_spec (chr b) (chr 10)) as [E|E]; [|reflexivity].
  exfalso. unfold chr in E. apply (f_equal nat_of_ascii) in E.
  rewrite !nat_ascii_embedding in E by lia. lia.
Qed.

Lemma nl_free_str1 b : 0 <= b < 256 -> b <> 10 -> nl_free (str1 (chr b)) = true.
Proof. intros Hb Hn. unfold str1. rewrite nl_free_cons, chr_not_nl by assumption. reflexivity. Qed.

Lemma digit_char_not_nl d : 0 <= d < 16 -> Ascii.eqb (digit_char d) (chr 10) = false.
Proof. intros Hd. unfold digit_char. destruct (d <? 10); apply chr_not_nl; lia. Qed.

Lemma nl_free_digit d : 0 <= d < 16 -> nl_free (str1 (digit_char d)) = true.
Proof. intros Hd. unfold str1. rewrite nl_free_cons, digit_char_not_nl by exact Hd. reflexivity. Qed.

Lemma Forall_firstn_sub {A} (P : A -> Prop) n l : Forall P l -> Forall P (firstn n l).
Proof.
  revert l. induction n as [|n IH]; intros l H; [constructor|].
  destruct H; simpl; constructor; auto.
Qed.

Lemma Forall_skipn_sub {A} (P : A -> Prop) n l : Forall P l -> Forall P (skipn n l).
Proof.
  revert l. induction n as [|n IH]; intros l H; [exact H|].
  destruct H; simpl; [constructor | auto].
Qed.

Lemma Forall_and_sub {A} (P Q : A -> Prop) l :
  Forall P l -> Forall Q l -> Forall (fun x => P x /\ Q x) l.
Proof. intros HP HQ. induction HP; inversion HQ; constructor; auto. Qed.

Lemma nl_free_bytes l : Forall (fun b => 128 <= b /\ 0 <= b < 256) l ->
  nl_free (string_of_bytes l) = true.
Proof.
  induction 1 as [|b r Hb Hr IH]; [reflexivity|].
  unfold string_of_bytes in *. simpl. rewrite nl_free_cons, IH, chr_not_nl by lia.
  reflexivity.
Qed.

(** The bytes a multi-byte rune occupies all have the high bit set. *)
Lemma decode_rune_high b rest r wd :
  128 <= b -> decode_rune (b :: rest) = (r, wd) ->
  Forall (fun x => 128 <= x) (firstn wd (b :: rest)).
Proof.
  intros Hb D. unfold decode_rune in D.
  rewrite (proj2 (Z.ltb_ge b 128) Hb) in D. unfold cont, in_range in D.
  destruct rest as [|b1 [|b2 [|b3 r']]];
    repeat match type of D with
           | context [if ?c then _ else _] => let E := fresh "E" in destruct c eqn:E
           end;
    inversion D; subst; clear D;
    repeat match goal with
           | H : _ && _ = true |- _ => apply andb_prop in H; destruct H
           | H : (_ <=? _) = true |- _ => apply Z.leb_le in H
           end;
    repeat match goal with
           | H : context [if ?c then _ else _] |- _ => destruct c
           end;
    simpl; repeat (apply Forall_cons; [lia|]); apply Forall_nil.
Qed.

Lemma json_escape_nl_free fuel bs :
  Forall (fun b => 0 <= b < 256) bs -> nl_free (json_escape fuel bs) = true.
Proof.
  revert bs. induction fuel as [|fuel IH]; intros bs H; [reflexivity|].
  destruct bs as [|b rest]; [reflexivity|].
  pose proof H as Hall. inversion H as [|? ? Hb Hrest]; subst.
  cbn -[String.append decode_rune string_of_bytes nl_free].
  destruct (b <? 128) eqn:Hlt.
  - apply Z.ltb_lt in Hlt. rewrite nl_free_app, IH by exact Hrest. rewrite andb_true_r.
    destruct (html_safe b) eqn:Hs.
    + unfold html_safe in Hs.
      repeat match goal with H : _ && _ = true |- _ => apply andb_prop in H; destruct H end.
      apply Z.leb_le in H0. apply nl_free_str1; lia.
    + repeat match goal with |- context [if ?c then _ else _] => destruct c end;
        try reflexivity.
      rewrite !nl_free_app, !nl_free_digit; [reflexivity | |]; 
        (split; [apply Z.div_pos + apply Z.mod_pos_bound |]; lia) || (Z.div_mod_to_equations; lia).
  - apply Z.ltb_ge in Hlt.
    destruct (decode_rune (b :: rest)) as [r wd] eqn:D.
    destruct ((r =? RuneError) && Nat.eqb wd 1).
    + rewrite nl_free_app, IH by exact Hrest. reflexivity.
    + destruct ((r =? 8232) || (r =? 8233)).
      * rewrite !nl_free_app, nl_free_digit, IH by
          (apply Forall_skipn_sub; exact Hall) || (Z.div_mod_to_equations; lia).
        reflexivity.
      * rewrite nl_free_app, IH by (apply Forall_skipn_sub; exact Hall).
        rewrite nl_free_bytes; [reflexivity|].
        apply Forall_and_sub; [exact (decode_rune_high b rest r wd Hlt D)|].
        apply Forall_firstn_sub. exact Hall.
Qed.

Lemma json_string_nl_free s : nl_free (json_string s) = true.
Proof.
  unfold json_string. rewrite !nl_free_app, json_escape_nl_free; [reflexivity|].
  unfold bytes_of, byte_of. apply Forall_forall. intros x Hx.
  apply in_map_iff in Hx. destruct Hx as [c [<- _]].
  pose proof (nat_ascii_bounded c). lia.
Qed.

Lemma digits_in_nl_free fuel n acc :
  0 <= n -> nl_free acc = true -> nl_free (digits_in 10 fuel n acc) = true.
Proof.
  revert n acc. induction fuel as [|fuel IH]; intros n acc Hn Ha; simpl; [exact Ha|].
  assert (Hd : nl_free (String (digit_char (n mod 10)) acc) = true).
  { rewrite nl_free_cons, digit_char_not_nl, Ha; [reflexivity|].
    pose proof (Z.mod_pos_bound n 10). lia. }
  destruct (n / 10 =? 0); [exact Hd|].
  apply IH; [apply Z.div_pos; lia | exact Hd].
Qed.

Lemma z_dec_nl_free n : nl_free (z_dec n) = true.
Proof.
  unfold z_dec. destruct (n <? 0) eqn:E.
  - apply Z.ltb_lt in E. rewrite nl_free_app, digits_in_nl_free by (reflexivity || lia).
    reflexivity.
  - apply Z.ltb_ge in E. apply digits_in_nl_free; [lia | reflexivity].
Qed.

Lemma concat_nl_free sep l :
  nl_free sep = true -> Forall (fun s => nl_free s = true) l ->
  nl_free (String.concat sep l) = true.
Proof.
  intros Hs H. induction H as [|x r Hx Hr IH]; [reflexivity|].
  destruct r as [|y r']; [exact Hx|].
  change (String.concat sep (x :: y :: r')) with (x ++ sep ++ String.concat sep (y :: r')).
  rewrite !nl_free_app, Hx, Hs, IH. reflexivity.
Qed.

Lemma obj_member_nl_free k v :
  nl_free (render v) = true -> nl_free (json_string k ++ ":" ++ render v) = true.
Proof. intros H. rewrite !nl_free_app, json_string_nl_free, H. reflexivity. Qed.

(** [json.Marshal]'s compact output never holds a newline byte. *)
Lemma render_nl_free : forall j, nl_free (render j) = true.
Proof.
  fix IH 1. intros [| b | n | s | l | kvs];
    cbn -[String.append nl_free json_string z_dec String.concat map].
  - reflexivity.
  - destruct b; reflexivity.
  - apply z_dec_nl_free.
  - apply json_string_nl_free.
  - rewrite !nl_free_app, concat_nl_free; [reflexivity | reflexivity |].
    exact ((fix go (l : list json) : Forall (fun s => nl_free s = true) (map render l) :=
              match l with
              | [] => Forall_nil _
              | x :: r => Forall_cons _ (IH x) (go r)
              end) l).
  - rewrite !nl_free_app, concat_nl_free; [reflexivity | reflexivity |].
    exact ((fix go (kvs : list (string * json))
              : Forall (fun s => nl_free s = true)
                  (map (fun kv => json_string (fst kv) ++ ":" ++ render (snd kv)) kvs) :=
              match kvs with
              | [] => Forall_nil _
              | (k, v) :: r => Forall_cons _ (obj_member_nl_free k v (IH v)) (go r)
              end) kvs).
Qed.

(** The first write of a structured call whose record serializes is the
    JSON text followed by one newline, and the JSON text holds no newline
    byte: whatever the message, the arguments and the stack trace contain,
    every record is exactly one line. *)
Theorem structured_record_single_line : forall env l level f args wr j,
  Structured.minLevel l <= level -> Structured.w l = Some wr ->
  Structured.Marshal (Structured.fmt env l level f args) = inr j ->
  hd_error (writes_of (snd (run (Structured.logMsg env l level f args)))) = Some (j ++ nl) /\
  nl_free j = true.
Proof.
  intros env l level f args wr j Hl Hw Hm. split.
  - pose proof (S_trace_ok env l level f args wr j Hl Hw Hm) as T.
    cbv zeta in T. rewrite T. reflexivity.
  - unfold Structured.Marshal in Hm.
    destruct (Structured.entry_json _) as [e|js]; inversion Hm; subst.
    apply render_nl_free.
Qed.

Lemma structured_record_single_line_witness :
  exists j,
    Structured.Marshal (Structured.fmt env0 svc_logger ERROR "a
b=%d" [AInt 1]) = inr j /\
    hd_error (writes_of (snd (run (Structured.logMsg env0 svc_logger ERROR "a
b=%d" [AInt 1])))) = Some (j ++ nl) /\
    nl_free j = true.
Proof.
  eexists. split; [vm_compute; reflexivity|].
  apply (structured_record_single_line env0 svc_logger ERROR "a
b=%d" [AInt 1] buf).
  - vm_compute. intro H. discriminate H.
  - reflexivity.
  - vm_compute. reflexivity.
Defined.
